(** * Storefront sections: grouped-items layout and labeled image tile

    A shallow embedding of the two presentational components of the
    repository,

    - [Testimonials.TestimonialsItems] (the grouped-items layout, together
      with its [variants] table and its [schema]), and
    - [ImageGallery.ImageGalleryItem] (the labeled image tile of
      [app/sections/image-gallery/image.tsx], with its [variants] and
      [schema]),

    and of the two small class-name helpers they call, [clsx] and [cva].
    Components are functions from a property object (and a forwarded ref)
    to a render tree; a JavaScript [TypeError] is an explicit [Throw]. *)

From Stdlib Require Import ZifyNat.
From stdpp Require Import base option list gmap strings pretty fin_maps.

Open Scope string_scope.

(** ** JavaScript values *)

(** The element type of a render-tree node: a host tag such as [div], or
    the image renderer imported from [~/components/image]. *)
Inductive Tag :=
| HostTag (name : string)
| ImageComponent.

(** The values a property can hold.  Numbers are the integers (the range
    controls of the inspector deliver integers), printed in decimal as
    JavaScript prints an integer below 10^21 in magnitude; objects are
    plain records of data; functions and symbols are not part of the model.
    A rendered element is a value too, so that [children] is an ordinary
    property. *)
#[warnings="-register-all"]
Inductive JsValue :=
| VUndefined
| VNull
| VBool (b : bool)
| VNum (n : Z)
| VStr (s : string)
| VObj (fields : gmap string JsValue)
| VArr (items : list JsValue)
| VElem (tag : Tag) (props : gmap string JsValue) (kids : list JsValue).

(** A property object. *)
Abbreviation JsObject := (gmap string JsValue).

(** Reading a property: an absent name reads as [undefined]. *)
Definition get (o : JsObject) (k : string) : JsValue :=
  default VUndefined (o !! k).

(** The rest pattern [{n1, ..., nk, ...rest} = o]: every own property of
    [o] except the named ones. *)
Definition omit (names : list string) (o : JsObject) : JsObject :=
  foldr delete o names.

(** The object literal [{...lower, ...upper}]: later properties win. *)
Definition spread_over (lower upper : JsObject) : JsObject := upper ∪ lower.

(** Truthiness, as used by [&&], [||], [?:] and [if]. *)
Definition truthy (v : JsValue) : bool :=
  match v with
  | VUndefined | VNull | VBool false | VNum 0 | VStr "" => false
  | _ => true
  end.

(** [a || b] *)
Definition js_or (a b : JsValue) : JsValue := if truthy a then a else b.

(** [typeof v === "object"]; note that [typeof null] is ["object"]. *)
Definition typeof_object (v : JsValue) : bool :=
  match v with
  | VNull | VObj _ | VArr _ | VElem _ _ _ => true
  | _ => false
  end.

(** The values of primitive type. *)
Definition is_primitive (v : JsValue) : bool :=
  match v with
  | VUndefined | VNull | VBool _ | VNum _ | VStr _ => true
  | _ => false
  end.

(** ** Exceptions *)

Inductive Exn := TypeError.

Inductive Result (A : Type) :=
| Ok (a : A)
| Throw (e : Exn).
Arguments Ok {A} a.
Arguments Throw {A} e.

#[global] Instance Result_ret : MRet Result := λ A a, Ok a.
#[global] Instance Result_bind : MBind Result := λ A B f r,
  match r with Ok a => f a | Throw e => Throw e end.

(** ** Property keys *)

(** [String(v)], which is how [table[v]] turns [v] into a property name.
    A record answers ["[object Object]"] through the inherited [toString],
    unless a field of its own called [toString] hides it: that field is
    data, hence not callable, and the inherited [valueOf] returns the
    record itself, so the conversion throws.  An array joins its items with
    commas, [null] and [undefined] items printing as nothing. *)
Fixpoint toStringJs (v : JsValue) : Result string :=
  match v with
  | VUndefined => Ok "undefined"
  | VNull => Ok "null"
  | VBool true => Ok "true"
  | VBool false => Ok "false"
  | VNum n => Ok (pretty n)
  | VStr s => Ok s
  | VObj fields =>
      match fields !! "toString" with
      | Some _ => Throw TypeError
      | None => Ok "[object Object]"
      end
  | VArr items =>
      let item x :=
        match x with
        | VUndefined | VNull => Ok ""
        | _ => toStringJs x
        end in
      (fix join (l : list JsValue) : Result string :=
         match l with
         | [] => Ok ""
         | [x] => item x
         | x :: l' => s ← item x; r ← join l'; Ok (s ++ "," ++ r)
         end) items
  | VElem _ _ _ => Ok "[object Object]"
  end.

Definition toPropertyKey (v : JsValue) : Result string := toStringJs v.

(** ** clsx *)

(** Both components import [clsx] from the package of that name and [cva]
    from [class-variance-authority]; the two functions are embedded here
    as those packages define them.

    What the components hand to [clsx]: a class string, nothing
    ([undefined] or [null]), or an array of such. *)
#[warnings="-register-all"]
Inductive ClassValue :=
| CStr (s : string)
| CNil
| CArr (items : list ClassValue).

Definition class_truthy (c : ClassValue) : bool :=
  match c with
  | CStr "" | CNil => false
  | _ => true
  end.

(** [str && (str += ' '); str += x] *)
Definition append_class (str x : string) : string :=
  (if String.eqb str "" then str else str ++ " ") ++ x.

(** [toVal] of clsx: a string is itself; an array contributes its truthy
    items, separated by single spaces. *)
Fixpoint toVal (mix : ClassValue) : string :=
  match mix with
  | CStr s => s
  | CNil => ""
  | CArr items =>
      (fix loop (l : list ClassValue) (str : string) : string :=
         match l with
         | [] => str
         | x :: l' =>
             if class_truthy x then
               let y := toVal x in
               if String.eqb y "" then loop l' str
               else loop l' (append_class str y)
             else loop l' str
         end) items ""
  end.

(** [clsx(...args)] *)
Fixpoint clsx_loop (args : list ClassValue) (str : string) : string :=
  match args with
  | [] => str
  | tmp :: args' =>
      if class_truthy tmp then
        let x := toVal tmp in
        if String.eqb x "" then clsx_loop args' str
        else clsx_loop args' (append_class str x)
      else clsx_loop args' str
  end.

Definition clsx (args : list ClassValue) : string := clsx_loop args "".

(** ** cva *)

(** The configuration given to [cva(base, config)].  The variants are kept
    in source order, the order of [Object.keys]; each variant's table is a
    constant map from property name to class string. *)
Record CvaConfig := {
  cva_base : string;
  cva_variants : list (string * gmap string string);
  cva_defaultVariants : JsObject
}.

(** [falsyToString]: booleans and the number zero become strings, so that
    they select a table entry instead of falling back to the default. *)
Definition falsyToString (v : JsValue) : JsValue :=
  match v with
  | VBool true => VStr "true"
  | VBool false => VStr "false"
  | VNum 0 => VStr "0"
  | _ => v
  end.

(** [table[key]].  A name that is not in the table reads as nothing.  (The
    names every object inherits, such as [constructor], read as functions
    or as an object without enumerable names, which [clsx] prints as
    nothing as well.) *)
Definition table_get (table : gmap string string) (key : string) : ClassValue :=
  match table !! key with
  | Some c => CStr c
  | None => CNil
  end.

(** The class of one variant: [null] switches the variant off, a falsy
    value other than [false] and [0] selects the default, and anything else
    is looked up in the table. *)
Definition variant_class (cfg : CvaConfig) (props : JsObject)
    (variant : string) (table : gmap string string) : Result ClassValue :=
  let variantProp := get props variant in
  let defaultVariantProp := get (cva_defaultVariants cfg) variant in
  match variantProp with
  | VNull => Ok CNil
  | _ =>
      let variantKey :=
        js_or (falsyToString variantProp) (falsyToString defaultVariantProp) in
      key ← toPropertyKey variantKey;
      Ok (table_get table key)
  end.

Fixpoint variant_classes (cfg : CvaConfig) (props : JsObject)
    (vs : list (string * gmap string string)) : Result (list ClassValue) :=
  match vs with
  | [] => Ok []
  | (variant, table) :: vs' =>
      c ← variant_class cfg props variant table;
      cs ← variant_classes cfg props vs';
      Ok (c :: cs)
  end.

(** [cva(base, config)(props)], for a configuration without compound
    variants and properties without [class] or [className], which is how
    both components use it. *)
Definition cva (cfg : CvaConfig) (props : JsObject) : Result string :=
  getVariantClassNames ← variant_classes cfg props (cva_variants cfg);
  Ok (clsx [CStr (cva_base cfg); CArr getVariantClassNames; CNil; CNil; CNil]).

(** ** Configuration schemas *)

(** The shape of [HydrogenComponentSchema], as far as the two schemas of
    the repository use it. *)
Record SelectOption := {
  option_label : string;
  option_value : string
}.

Record InputConfigs := {
  configs_min : option Z;
  configs_max : option Z;
  configs_step : option Z;
  configs_unit : option string;
  configs_options : option (list SelectOption)
}.

Record SchemaInput := {
  input_type : string;
  input_name : string;
  input_label : string;
  input_configs : option InputConfigs;
  input_defaultValue : JsValue;
  input_placeholder : option string
}.

Record InspectorGroup := {
  group : string;
  inputs : list SchemaInput
}.

Record HydrogenComponentSchema := {
  schema_type : string;
  schema_title : string;
  schema_childTypes : option (list string);
  inspector : list InspectorGroup
}.

(** The binding keys of a schema: the names of all its inputs, in order. *)
Definition input_names (s : HydrogenComponentSchema) : list string :=
  concat (map (λ g, map input_name (inputs g)) (inspector s)).

(** The input of a schema that binds a given name, if any. *)
Definition find_input (s : HydrogenComponentSchema) (name : string)
  : option SchemaInput :=
  head (filter (λ i, input_name i = name)
          (concat (map inputs (inspector s)))).

(** The inputs of a schema that bind a name the component does not take
    out of its properties, and the names the component takes that no input
    binds. *)
Definition unconsumed_inputs (s : HydrogenComponentSchema)
    (declared : list string) : list string :=
  filter (λ name, name ∉ declared) (input_names s).

Definition unbound_parameters (s : HydrogenComponentSchema)
    (declared : list string) : list string :=
  filter (λ name, name ∉ input_names s) declared.

Definition range_configs (lo hi step : Z) (unit : option string) : InputConfigs :=
  {| configs_min := Some lo; configs_max := Some hi; configs_step := Some step;
     configs_unit := unit; configs_options := None |}.

Definition select_configs (options : list SelectOption) : InputConfigs :=
  {| configs_min := None; configs_max := None; configs_step := None;
     configs_unit := None; configs_options := Some options |}.

(** ** Arrays *)

(** [items.filter((x, i) => f x i)], the callback seeing each item with
    its zero-based position. *)
Fixpoint filter_from (f : JsValue → nat → bool) (i : nat) (items : list JsValue)
  : list JsValue :=
  match items with
  | [] => []
  | x :: items' =>
      if f x i then x :: filter_from f (S i) items'
      else filter_from f (S i) items'
  end.

Definition array_filter (f : JsValue → nat → bool) (items : list JsValue)
  : list JsValue :=
  filter_from f 0 items.

(** The callback [(_, i) => i % 3 === j]. *)
Definition at_residue (j : nat) : JsValue → nat → bool :=
  λ _ i, (i mod 3 =? j)%nat.

(** [v?.filter(f)]: [undefined] when [v] is [undefined] or [null]; only an
    array has a [filter] to call, anything else throws. *)
Definition optional_filter (v : JsValue) (f : JsValue → nat → bool)
  : Result JsValue :=
  match v with
  | VUndefined | VNull => Ok VUndefined
  | VArr items => Ok (VArr (array_filter f items))
  | _ => Throw TypeError
  end.

(** ** The grouped-items layout *)

Module Testimonials.

Definition variants : CvaConfig := {|
  cva_base := "grid lg:grid-cols-3";
  cva_variants :=
    [("gap", list_to_map
        [("16", "gap-4"); ("24", "gap-6"); ("32", "gap-8"); ("40", "gap-10")])];
  cva_defaultVariants := {["gap" := VNum 32]}
|}.

(** The names the component takes out of its properties. *)
Definition declared : list string := ["gap"; "children"].

(** One of the three tracks, holding whatever the filter returned. *)
Definition track (content : JsValue) : JsValue :=
  VElem (HostTag "div") {["className" := VStr "space-y-6"]} [content].

Definition TestimonialsItems (props : JsObject) (ref : JsValue)
  : Result JsValue :=
  let gap := get props "gap" in
  let children := get props "children" in
  let rest := omit declared props in
  className ← cva variants {["gap" := gap]};
  track0 ← optional_filter children (at_residue 0);
  track1 ← optional_filter children (at_residue 1);
  track2 ← optional_filter children (at_residue 2);
  Ok (VElem (HostTag "div")
        (<["className" := VStr (clsx [CStr className])]>
           (spread_over {["ref" := ref]} rest))
        [track track0; track track1; track track2]).

(** Reading a render tree.  A track shows the items of the array it
    holds; [undefined] shows nothing. *)
Definition content_items (content : JsValue) : list JsValue :=
  match content with
  | VArr items => items
  | _ => []
  end.

Definition track_items (t : JsValue) : list JsValue :=
  match t with
  | VElem _ _ [content] => content_items content
  | _ => []
  end.

Definition tracks (tree : JsValue) : list (list JsValue) :=
  match tree with
  | VElem _ _ kids => map track_items kids
  | _ => []
  end.

Definition attributes (tree : JsValue) : JsObject :=
  match tree with
  | VElem _ attrs _ => attrs
  | _ => ∅
  end.

(** The child sequence a [children] property stands for: an array, or
    no children at all. *)
Definition child_sequence (children : JsValue) : option (list JsValue) :=
  match children with
  | VArr items => Some items
  | VUndefined | VNull => Some []
  | _ => None
  end.

(** The layout renders, and its root carries exactly the class [cls]. *)
Definition renders_with_class (props : JsObject) (ref : JsValue)
    (cls : string) : Prop :=
  ∃ tree, TestimonialsItems props ref = Ok tree
          ∧ get (attributes tree) "className" = VStr cls.

Definition schema : HydrogenComponentSchema := {|
  schema_type := "testimonials-items";
  schema_title := "Items";
  schema_childTypes := Some ["testimonial--item"];
  inspector := [
    {| group := "Items";
       inputs := [
         {| input_type := "range";
            input_name := "gap";
            input_label := "Items gap";
            input_configs := Some (range_configs 16 40 8 (Some "px"));
            input_defaultValue := VNum 32;
            input_placeholder := None |}
       ] |}
  ]
|}.

End Testimonials.

(** ** The labeled image tile *)

Module ImageGallery.

Definition columnSpanTable : gmap string string :=
  list_to_map
    [("1", "col-span-1"); ("2", "col-span-2");
     ("3", "col-span-3"); ("4", "col-span-4")].

Definition borderRadiusTable : gmap string string :=
  list_to_map
    [("0", ""); ("2", "rounded-sm"); ("4", "rounded");
     ("6", "rounded-md"); ("8", "rounded-lg");
     ("10", "rounded-[10px]"); ("12", "rounded-xl");
     ("14", "rounded-[14px]"); ("16", "rounded-2xl");
     ("18", "rounded-[18px]"); ("20", "rounded-[20px]");
     ("22", "rounded-[22px]"); ("24", "rounded-3xl")].

Definition hideOnMobileTable : gmap string string :=
  list_to_map [("true", "hidden sm:block"); ("false", "")].

Definition variants : CvaConfig := {|
  cva_base := "relative h-[--image-height]";
  cva_variants :=
    [("columnSpan", columnSpanTable);
     ("borderRadius", borderRadiusTable);
     ("hideOnMobile", hideOnMobileTable)];
  cva_defaultVariants :=
    <["columnSpan" := VNum 1]>
      (<["borderRadius" := VNum 8]> {["hideOnMobile" := VBool false]})
|}.

(** The names the component takes out of its properties. *)
Definition declared : list string :=
  ["src"; "columnSpan"; "borderRadius"; "hideOnMobile"; "label";
   "labelFontSize"; "labelColor"; "labelFontWeight"].

(** A destructuring default, [name = fallback]: it applies to
    [undefined] only. *)
Definition or_default (v fallback : JsValue) : JsValue :=
  match v with
  | VUndefined => fallback
  | _ => v
  end.

Definition fontSizeClasses : gmap string string :=
  list_to_map
    [("xs", "text-xs"); ("sm", "text-sm"); ("base", "text-base");
     ("lg", "text-lg"); ("xl", "text-xl")].

Definition fontWeightClasses : gmap string string :=
  list_to_map
    [("normal", "font-normal"); ("medium", "font-medium");
     ("semibold", "font-semibold"); ("bold", "font-bold")].

(** [typeof src === "object" ? src : { url: src, altText: src }] *)
Definition image_data (src : JsValue) : JsValue :=
  if typeof_object src then src
  else VObj (<["url" := src]> {["altText" := src]}).

(** The properties the image renderer receives: the forwarded ref, the
    rest of the incoming properties, then the tile's own attributes. *)
Definition image_props (ref : JsValue) (rest : JsObject) (data : JsValue)
  : JsObject :=
  <["sizes" := VStr "(min-width: 45em) 50vw, 100vw"]>
    (<["height" := VNum 600]>
       (<["width" := VNum 800]>
          (<["data" := data]>
             (<["loading" := VStr "lazy"]>
                (<["data-motion" := VStr "slide-in"]>
                   (<["className" :=
                        VStr "w-full h-full object-cover transition-transform duration-300 hover:scale-105"]>
                      (spread_over {["ref" := ref]} rest))))))).

(** The caption below the image. *)
Definition caption (label labelFontSize labelColor labelFontWeight : JsValue)
  : Result JsValue :=
  sizeKey ← toPropertyKey labelFontSize;
  weightKey ← toPropertyKey labelFontWeight;
  Ok (VElem (HostTag "div")
        (<["className" :=
             VStr (clsx [CStr "mt-2 text-center font-sans";
                         table_get fontSizeClasses sizeKey;
                         table_get fontWeightClasses weightKey])]>
           {["style" :=
               if truthy labelColor
               then VObj {["color" := labelColor]}
               else VUndefined]})
        [label]).

Definition ImageGalleryItem (props : JsObject) (ref : JsValue)
  : Result JsValue :=
  let src := get props "src" in
  let columnSpan := get props "columnSpan" in
  let borderRadius := get props "borderRadius" in
  let hideOnMobile := get props "hideOnMobile" in
  let label := get props "label" in
  let labelFontSize := or_default (get props "labelFontSize") (VStr "base") in
  let labelColor := get props "labelColor" in
  let labelFontWeight :=
    or_default (get props "labelFontWeight") (VStr "normal") in
  let rest := omit declared props in
  let data := image_data src in
  variantClasses ←
    cva variants
      (<["columnSpan" := columnSpan]>
         (<["borderRadius" := borderRadius]>
            {["hideOnMobile" := hideOnMobile]}));
  below ←
    (if truthy label
     then caption label labelFontSize labelColor labelFontWeight
     else Ok label);
  Ok (VElem (HostTag "div") {["className" := VStr "flex flex-col"]}
        [VElem (HostTag "div")
           {["className" :=
               VStr (clsx [CStr "relative overflow-hidden";
                           CStr variantClasses])]}
           [VElem ImageComponent (image_props ref rest data) []];
         below]).

(** Which parameters are of primitive type: the three that select a
    variant class, and the two that select the caption's typography. *)
Definition variant_params_primitive (props : JsObject) : bool :=
  is_primitive (get props "columnSpan")
  && is_primitive (get props "borderRadius")
  && is_primitive (get props "hideOnMobile").

Definition caption_params_primitive (props : JsObject) : bool :=
  is_primitive (get props "labelFontSize")
  && is_primitive (get props "labelFontWeight").

(** The attributes the tile sets on the image renderer after spreading
    the rest of its properties. *)
Definition own_attributes : list string :=
  ["className"; "data-motion"; "loading"; "data"; "width"; "height"; "sizes"].

(** Reading a render tree: the class of the image container, the
    properties handed to the image renderer, and the elements among the
    children of the root (a string, [undefined] or [null] there is not an
    element). *)
Definition container_class (tree : JsValue) : JsValue :=
  match tree with
  | VElem _ _ (VElem _ attrs _ :: _) => get attrs "className"
  | _ => VUndefined
  end.

Definition image_renderer_props (tree : JsValue) : option JsObject :=
  match tree with
  | VElem _ _ (VElem _ _ [VElem ImageComponent ip _] :: _) => Some ip
  | _ => None
  end.

Definition is_element (v : JsValue) : bool :=
  match v with
  | VElem _ _ _ => true
  | _ => false
  end.

Definition rendered_elements (tree : JsValue) : list JsValue :=
  match tree with
  | VElem _ _ kids => List.filter is_element kids
  | _ => []
  end.

(** What the component renders below the image container: the value of
    [label && caption]. *)
Definition below_image (props : JsObject) : Result JsValue :=
  if truthy (get props "label")
  then caption (get props "label")
         (or_default (get props "labelFontSize") (VStr "base"))
         (get props "labelColor")
         (or_default (get props "labelFontWeight") (VStr "normal"))
  else Ok (get props "label").

Definition plain_input (type name label : string) (defaultValue : JsValue)
    (placeholder : option string) : SchemaInput :=
  {| input_type := type; input_name := name; input_label := label;
     input_configs := None; input_defaultValue := defaultValue;
     input_placeholder := placeholder |}.

Definition schema : HydrogenComponentSchema := {|
  schema_type := "image-gallery--item";
  schema_title := "Image";
  schema_childTypes := None;
  inspector := [
    {| group := "Image gallery item";
       inputs := [
         plain_input "image" "src" "Image"
           (VStr "https://cdn.shopify.com/s/files/1/0838/0052/3057/files/h2-placeholder-image.svg")
           None;
         plain_input "text" "label" "Label" (VStr "") None;
         plain_input "url" "to" "Link to" (VStr "/products") (Some "/products");
         {| input_type := "range";
            input_name := "columnSpan";
            input_label := "Column span";
            input_configs := Some (range_configs 1 4 1 None);
            input_defaultValue := VNum 1;
            input_placeholder := None |};
         {| input_type := "range";
            input_name := "borderRadius";
            input_label := "Border radius";
            input_configs := Some (range_configs 0 24 2 (Some "px"));
            input_defaultValue := VNum 0;
            input_placeholder := None |};
         plain_input "switch" "hideOnMobile" "Hide on mobile" (VBool false) None;
         {| input_type := "select";
            input_name := "labelFontSize";
            input_label := "Label Font Size";
            input_configs := Some (select_configs [
              {| option_label := "Extra Small"; option_value := "xs" |};
              {| option_label := "Small"; option_value := "sm" |};
              {| option_label := "Base"; option_value := "base" |};
              {| option_label := "Large"; option_value := "lg" |};
              {| option_label := "Extra Large"; option_value := "xl" |}]);
            input_defaultValue := VStr "base";
            input_placeholder := None |};
         {| input_type := "select";
            input_name := "labelFontWeight";
            input_label := "Label Font Weight";
            input_configs := Some (select_configs [
              {| option_label := "Normal"; option_value := "normal" |};
              {| option_label := "Medium"; option_value := "medium" |};
              {| option_label := "Semibold"; option_value := "semibold" |};
              {| option_label := "Bold"; option_value := "bold" |}]);
            input_defaultValue := VStr "normal";
            input_placeholder := None |};
         plain_input "color" "labelColor" "Label Color" (VStr "") None
       ] |}
  ]
|}.

End ImageGallery.

(** ** Reading trees and schemas *)

(** The children of an element. *)
Definition element_children (tree : JsValue) : list JsValue :=
  match tree with
  | VElem _ _ kids => kids
  | _ => []
  end.

(** The configuration of the input that binds [name], if it has one. *)
Definition configs_of (s : HydrogenComponentSchema) (name : string)
  : option InputConfigs :=
  find_input s name ≫= input_configs.

(** The values a range control offers: [min], [min + step], ... up to
    [max]. *)
Definition in_range (c : InputConfigs) (n : Z) : bool :=
  match configs_min c, configs_max c, configs_step c with
  | Some lo, Some hi, Some step =>
      ((lo <=? n) && (n <=? hi) && ((n - lo) mod step =? 0))%Z
  | _, _, _ => false
  end.

Definition range_offers (s : HydrogenComponentSchema) (name : string) (n : Z)
  : bool :=
  match configs_of s name with
  | Some c => in_range c n
  | None => false
  end.

(** The values a select control offers. *)
Definition select_offers (s : HydrogenComponentSchema) (name : string)
  : list string :=
  match configs_of s name ≫= configs_options with
  | Some options => map option_value options
  | None => []
  end.

(** ** Values that name a property *)

(** Whether a value converts to a property name without throwing.  Every
    primitive value does. *)
Definition key_convertible (v : JsValue) : bool :=
  match toPropertyKey v with
  | Ok _ => true
  | Throw _ => false
  end.



(** * Properties *)

Close Scope string_scope.

#[local] Ltac Zify.zify_post_hook ::= Z.div_mod_to_equations.

(** ** Objects *)

Lemma lookup_omit (names : list string) (o : JsObject) (k : string) :
  omit names o !! k = if decide (k ∈ names) then None else o !! k.
Proof.
  induction names as [|n names IH]; simpl.
  - destruct (decide (k ∈ [])) as [Hin|_]; [by apply elem_of_nil in Hin | done].
  - destruct (decide (n = k)) as [->|Hne].
    + rewrite lookup_delete_eq.
      destruct (decide (k ∈ k :: names)) as [_|Hout]; [done|].
      exfalso. apply Hout. left.
    + rewrite lookup_delete_ne by done. rewrite IH.
      destruct (decide (k ∈ names)) as [Hin|Hout];
        destruct (decide (k ∈ n :: names)) as [Hin'|Hout']; try done.
      * exfalso. apply Hout'. by right.
      * apply elem_of_cons in Hin' as [->|Hin']; done.
Qed.

Lemma lookup_spread_over (lower upper : JsObject) (k : string) :
  spread_over lower upper !! k
  = match upper !! k with Some v => Some v | None => lower !! k end.
Proof.
  unfold spread_over. rewrite lookup_union.
  destruct (upper !! k), (lower !! k); done.
Qed.

Lemma get_insert_eq (o : JsObject) (k : string) (v : JsValue) :
  get (<[k := v]> o) k = v.
Proof. unfold get. by rewrite lookup_insert_eq. Qed.

Lemma get_insert_ne (o : JsObject) (k k' : string) (v : JsValue) :
  k ≠ k' → get (<[k := v]> o) k' = get o k'.
Proof. intros. unfold get. by rewrite lookup_insert_ne. Qed.

Lemma get_singleton_eq (k : string) (v : JsValue) :
  get {[k := v]} k = v.
Proof. unfold get. by rewrite lookup_singleton_eq. Qed.

(** ** Array filtering by residue *)

Lemma filter_from_lookup (j : nat) (items : list JsValue) :
  j < 3 → ∀ s k,
  filter_from (at_residue j) s items !! k
  = items !! (3 * k + (j + 3 - s mod 3) mod 3).
Proof.
  intros Hj. induction items as [|x items IH]; intros s k.
  - by rewrite !lookup_nil.
  - cbn [filter_from]. unfold at_residue at 1.
    destruct (Nat.eqb_spec (s mod 3) j) as [Heq|Hne].
    + replace ((j + 3 - s mod 3) mod 3) with 0 by lia.
      destruct k as [|k].
      * reflexivity.
      * replace (3 * S k + 0) with (S (3 * k + 2)) by lia.
        cbn [lookup list_lookup]. rewrite IH. f_equal. lia.
    + rewrite IH.
      replace (3 * k + (j + 3 - s mod 3) mod 3)
        with (S (3 * k + (j + 3 - S s mod 3) mod 3)) by lia.
      reflexivity.
Qed.

Lemma array_filter_lookup (j : nat) (items : list JsValue) (k : nat) :
  j < 3 → array_filter (at_residue j) items !! k = items !! (3 * k + j).
Proof.
  intros Hj. unfold array_filter. rewrite filter_from_lookup by done.
  f_equal. lia.
Qed.

Lemma filter_from_sublist (f : JsValue → nat → bool) (items : list JsValue) :
  ∀ s, filter_from f s items `sublist_of` items.
Proof.
  induction items as [|x items IH]; intros s; simpl.
  - constructor.
  - destruct (f x s); [apply sublist_skip | apply sublist_cons]; apply IH.
Qed.

(** The size of a track: one position for each [k] with [3 k + j < n]. *)
Lemma array_filter_length (j : nat) (items : list JsValue) :
  j < 3 →
  length (array_filter (at_residue j) items) = (length items + 2 - j) / 3.
Proof.
  intros Hj.
  set (m := length (array_filter (at_residue j) items)).
  assert (∀ k, k < m ↔ 3 * k + j < length items) as Hm.
  { intros k. unfold m. rewrite <-!lookup_lt_is_Some.
    by rewrite array_filter_lookup. }
  pose proof (Hm m) as H1.
  destruct m as [|m'].
  - lia.
  - pose proof (Hm m') as H2. lia.
Qed.

(** ** Class lookups on primitive values *)

Lemma toPropertyKey_primitive (v : JsValue) :
  is_primitive v = true → ∃ key, toPropertyKey v = Ok key.
Proof. destruct v as [| |[]| | | | |]; try discriminate; intros _; eauto. Qed.


Lemma falsyToString_primitive (v : JsValue) :
  is_primitive v = true → is_primitive (falsyToString v) = true.
Proof. destruct v as [| |[]|[]| | | |]; done. Qed.

Lemma js_or_primitive (a b : JsValue) :
  is_primitive a = true → is_primitive b = true →
  is_primitive (js_or a b) = true.
Proof. unfold js_or. by destruct (truthy a). Qed.

Lemma variant_class_primitive (cfg : CvaConfig) (props : JsObject)
    (variant : string) (table : gmap string string) :
  is_primitive (get props variant) = true →
  is_primitive (get (cva_defaultVariants cfg) variant) = true →
  ∃ c, variant_class cfg props variant table = Ok c.
Proof.
  intros Hp Hd. unfold variant_class.
  destruct (toPropertyKey_primitive
              (js_or (falsyToString (get props variant))
                     (falsyToString (get (cva_defaultVariants cfg) variant))))
    as [key Hkey].
  { by apply js_or_primitive; apply falsyToString_primitive. }
  rewrite Hkey. destruct (get props variant); simpl; eauto.
Qed.

Lemma variant_classes_primitive (cfg : CvaConfig) (props : JsObject)
    (vs : list (string * gmap string string)) :
  Forall (λ vt, is_primitive (get props vt.1) = true
                ∧ is_primitive (get (cva_defaultVariants cfg) vt.1) = true) vs →
  ∃ cs, variant_classes cfg props vs = Ok cs.
Proof.
  induction 1 as [|[variant table] vs [Hp Hd] _ [cs Hcs]]; simpl; [eauto|].
  destruct (variant_class_primitive cfg props variant table Hp Hd) as [c ->].
  rewrite Hcs. simpl. eauto.
Qed.

(** A number selects the table entry named by its decimal form. *)
Lemma variant_class_number (cfg : CvaConfig) (props : JsObject)
    (variant : string) (table : gmap string string) (n : Z) :
  get props variant = VNum n →
  variant_class cfg props variant table = Ok (table_get table (pretty n)).
Proof.
  intros Hn. unfold variant_class. rewrite Hn. by destruct n.
Qed.

(** An omitted variant selects the entry of its default. *)
Lemma variant_class_omitted (cfg : CvaConfig) (props : JsObject)
    (variant : string) (table : gmap string string) (d : Z) :
  get props variant = VUndefined →
  get (cva_defaultVariants cfg) variant = VNum d →
  variant_class cfg props variant table = Ok (table_get table (pretty d)).
Proof.
  intros Hu Hd. unfold variant_class. rewrite Hu, Hd. by destruct d.
Qed.

Lemma Throw_TypeError {A : Type} (e : Exn) : @Throw A e = Throw TypeError.
Proof. by destruct e. Qed.

(** ** Class lookups on values that name a property *)

Lemma key_convertible_primitive (v : JsValue) :
  is_primitive v = true → key_convertible v = true.
Proof.
  intros Hv. unfold key_convertible.
  by destruct (toPropertyKey_primitive v Hv) as [key ->].
Qed.




Lemma pretty_Z_ne (n m : Z) : n ≠ m → pretty n ≠ pretty m.
Proof. intros Hne Heq. by apply Hne, (inj pretty). Qed.

(** Membership of a given name in a given list of names. *)
Ltac decide_names := apply (bool_decide_unpack _); by vm_compute.

(** A lookup under the decimal form of a number misses every entry named
    by the decimal form of a number known to be different. *)
Ltac table_miss :=
  unfold table_get; cbn [list_to_map foldr fst snd uncurry];
  repeat (rewrite lookup_insert_ne;
          [|match goal with
            | H : ?n ≠ ?m |- ?k ≠ pretty ?n =>
                change k with (pretty m); apply pretty_Z_ne; congruence
            end]);
  rewrite lookup_empty.

(** ** The grouped-items layout *)

Section grouped_layout.
Import Testimonials.

Lemma gap_class_primitive (gap : JsValue) :
  is_primitive gap = true → ∃ cls, cva variants {["gap" := gap]} = Ok cls.
Proof.
  intros Hgap. unfold cva.
  destruct (variant_classes_primitive variants {["gap" := gap]}
              (cva_variants variants)) as [cs ->]; [|simpl; eauto].
  repeat constructor; simpl; by rewrite ?get_singleton_eq.
Qed.

(** The render tree, once the class string is known and the children are
    a sequence. *)
Lemma TestimonialsItems_sequence (props : JsObject) (ref : JsValue)
    (cls : string) (items : list JsValue) :
  cva variants {["gap" := get props "gap"]} = Ok cls →
  child_sequence (get props "children") = Some items →
  ∃ c0 c1 c2,
    TestimonialsItems props ref
    = Ok (VElem (HostTag "div")
            (<["className" := VStr (clsx [CStr cls])]>
               (spread_over {["ref" := ref]} (omit declared props)))
            [track c0; track c1; track c2])
    ∧ content_items c0 = array_filter (at_residue 0) items
    ∧ content_items c1 = array_filter (at_residue 1) items
    ∧ content_items c2 = array_filter (at_residue 2) items.
Proof.
  intros Hcls Hseq. unfold TestimonialsItems. rewrite Hcls.
  destruct (get props "children") as [| | | | | |l|];
    simpl in Hseq; try discriminate; injection Hseq as <-;
    simpl; eauto 10.
Qed.

(** C1.  Whatever the sequence of children (the empty one and an absent
    [children] included), the layout renders exactly three tracks.  The
    child at position [i] is item [i / 3] of track [i mod 3]; track [j]
    holds the children of positions [j], [3 + j], [6 + j], ... in that
    order, so each track is a subsequence of the children; the three
    sizes add up to the number of children and differ by at most one. *)
Theorem tracks_partition (props : JsObject) (ref : JsValue)
    (items : list JsValue) :
  is_primitive (get props "gap") = true →
  child_sequence (get props "children") = Some items →
  ∃ attrs c0 c1 c2 t0 t1 t2,
    TestimonialsItems props ref
    = Ok (VElem (HostTag "div") attrs [track c0; track c1; track c2])
    ∧ tracks (VElem (HostTag "div") attrs [track c0; track c1; track c2])
      = [t0; t1; t2]
    ∧ (∀ i x, items !! i = Some x →
         ∃ t, [t0; t1; t2] !! (i mod 3) = Some t ∧ t !! (i / 3) = Some x)
    ∧ (∀ k, t0 !! k = items !! (3 * k)
            ∧ t1 !! k = items !! (3 * k + 1)
            ∧ t2 !! k = items !! (3 * k + 2))
    ∧ (t0 `sublist_of` items ∧ t1 `sublist_of` items ∧ t2 `sublist_of` items)
    ∧ length t0 + length t1 + length t2 = length items
    ∧ (length t2 ≤ length t1 ∧ length t1 ≤ length t0
       ∧ length t0 ≤ length t2 + 1)
    ∧ (items = [] → t0 = [] ∧ t1 = [] ∧ t2 = []).
Proof.
  intros Hgap Hseq.
  destruct (gap_class_primitive _ Hgap) as [cls Hcls].
  destruct (TestimonialsItems_sequence props ref cls items Hcls Hseq)
    as (c0 & c1 & c2 & Hrender & H0 & H1 & H2).
  eexists _, c0, c1, c2, _, _, _.
  split; [exact Hrender|]. split; [reflexivity|].
  cbn [track_items track]. rewrite H0, H1, H2.
  pose proof (array_filter_length 0 items ltac:(lia)) as L0.
  pose proof (array_filter_length 1 items ltac:(lia)) as L1.
  pose proof (array_filter_length 2 items ltac:(lia)) as L2.
  repeat split.
  all: try apply filter_from_sublist.
  all: try (rewrite array_filter_lookup by lia; f_equal; lia).
  all: try lia.
  all: try (subst items; reflexivity).
  intros i x Hi.
  pose proof (Nat.mod_upper_bound i 3) as Hlt.
  assert (3 * (i / 3) + i mod 3 = i) as Hdiv by lia.
  destruct (i mod 3) as [|[|[|r]]] eqn:Hr; [| | |lia]; eexists;
    (split; [reflexivity|]);
    rewrite array_filter_lookup by lia; by rewrite Hdiv.
Qed.

Lemma renders_class_of_gap (props : JsObject) (ref : JsValue)
    (items : list JsValue) (cls : string) :
  child_sequence (get props "children") = Some items →
  cva variants {["gap" := get props "gap"]} = Ok cls →
  renders_with_class props ref (clsx [CStr cls]).
Proof.
  intros Hseq Hcls.
  destruct (TestimonialsItems_sequence props ref cls items Hcls Hseq)
    as (c0 & c1 & c2 & Hrender & _).
  eexists. split; [exact Hrender|]. apply get_insert_eq.
Qed.

Lemma gap_class_outside (n : Z) :
  n ≠ 16%Z → n ≠ 24%Z → n ≠ 32%Z → n ≠ 40%Z →
  cva variants {["gap" := VNum n]} = Ok "grid lg:grid-cols-3".
Proof.
  intros. unfold cva. cbn [cva_variants variants variant_classes].
  rewrite (variant_class_number _ _ _ _ n) by apply get_singleton_eq.
  table_miss. reflexivity.
Qed.

(** C2, as amended.  The four values of the enumeration select their
    spacing class (16: gap-4, 24: gap-6, 32: gap-8, 40: gap-10); an omitted
    gap selects the class of the default 32; every other number selects
    no spacing class at all, so that the root keeps only its two base
    classes. *)
Theorem gap_spacing_class (props : JsObject) (ref : JsValue)
    (items : list JsValue) :
  child_sequence (get props "children") = Some items →
  (get props "gap" = VNum 16 →
     renders_with_class props ref "grid lg:grid-cols-3 gap-4")
  ∧ (get props "gap" = VNum 24 →
     renders_with_class props ref "grid lg:grid-cols-3 gap-6")
  ∧ (get props "gap" = VNum 32 →
     renders_with_class props ref "grid lg:grid-cols-3 gap-8")
  ∧ (get props "gap" = VNum 40 →
     renders_with_class props ref "grid lg:grid-cols-3 gap-10")
  ∧ (get props "gap" = VUndefined →
     renders_with_class props ref "grid lg:grid-cols-3 gap-8")
  ∧ (∀ n, get props "gap" = VNum n →
       n ≠ 16%Z → n ≠ 24%Z → n ≠ 32%Z → n ≠ 40%Z →
       renders_with_class props ref "grid lg:grid-cols-3").
Proof.
  intros Hseq.
  pose proof (renders_class_of_gap props ref items) as Hcls.
  repeat split; [intros Hgap ..|intros n Hgap ? ? ? ?]; rewrite Hgap in Hcls.
  - by apply (Hcls "grid lg:grid-cols-3 gap-4").
  - by apply (Hcls "grid lg:grid-cols-3 gap-6").
  - by apply (Hcls "grid lg:grid-cols-3 gap-8").
  - by apply (Hcls "grid lg:grid-cols-3 gap-10").
  - by apply (Hcls "grid lg:grid-cols-3 gap-8").
  - apply (Hcls "grid lg:grid-cols-3"); [done|]. by apply gap_class_outside.
Qed.

(** C2, as stated, fails: a gap of 20 is outside the enumeration, and the
    root it renders does not carry the class of the default gap. *)
Lemma gap_outside_enumeration_not_default :
  renders_with_class {["gap" := VNum 20]} VNull "grid lg:grid-cols-3"
  ∧ renders_with_class {["gap" := VNum 32]} VNull "grid lg:grid-cols-3 gap-8"
  ∧ ¬ renders_with_class {["gap" := VNum 20]} VNull "grid lg:grid-cols-3 gap-8".
Proof.
  assert (renders_with_class {["gap" := VNum 20]} VNull "grid lg:grid-cols-3")
    as H20 by (eexists; split; vm_compute; reflexivity).
  split; [exact H20|]. split.
  - eexists; split; vm_compute; reflexivity.
  - intros (tree & Hrender & Hcls). destruct H20 as (tree' & Hrender' & Hcls').
    rewrite Hrender in Hrender'. injection Hrender' as <-.
    rewrite Hcls in Hcls'. discriminate.
Qed.

(** C7.  Seven children with a gap of 24: the tracks hold the children of
    positions 0, 3, 6, of positions 1, 4 and of positions 2, 5, and the
    root carries the class of gap 24. *)
Theorem seven_children_gap_24 (props : JsObject) (ref : JsValue)
    (x0 x1 x2 x3 x4 x5 x6 : JsValue) :
  get props "gap" = VNum 24 →
  get props "children" = VArr [x0; x1; x2; x3; x4; x5; x6] →
  ∃ tree,
    TestimonialsItems props ref = Ok tree
    ∧ tracks tree = [[x0; x3; x6]; [x1; x4]; [x2; x5]]
    ∧ map length (tracks tree) = [3; 2; 2]
    ∧ get (attributes tree) "className" = VStr "grid lg:grid-cols-3 gap-6".
Proof.
  intros Hgap Hchildren.
  destruct (TestimonialsItems_sequence props ref "grid lg:grid-cols-3 gap-6"
              [x0; x1; x2; x3; x4; x5; x6])
    as (c0 & c1 & c2 & Hrender & H0 & H1 & H2).
  { by rewrite Hgap. }
  { by rewrite Hchildren. }
  eexists. split; [exact Hrender|].
  cbn [tracks map track track_items attributes].
  rewrite H0, H1, H2, get_insert_eq. done.
Qed.

End grouped_layout.

(** ** The labeled image tile *)

Section image_tile.
Import ImageGallery.

Lemma variant_class_ext (cfg : CvaConfig) (p1 p2 : JsObject)
    (variant : string) (table : gmap string string) :
  get p1 variant = get p2 variant →
  variant_class cfg p1 variant table = variant_class cfg p2 variant table.
Proof. intros Heq. unfold variant_class. by rewrite Heq. Qed.

(** The class string of the image container, from the classes of the
    three variants. *)
Lemma image_variant_classes (props : JsObject) (span radius hide : ClassValue) :
  variant_class variants props "columnSpan" columnSpanTable = Ok span →
  variant_class variants props "borderRadius" borderRadiusTable = Ok radius →
  variant_class variants props "hideOnMobile" hideOnMobileTable = Ok hide →
  cva variants
    (<["columnSpan" := get props "columnSpan"]>
       (<["borderRadius" := get props "borderRadius"]>
          {["hideOnMobile" := get props "hideOnMobile"]}))
  = Ok (clsx [CStr (cva_base variants); CArr [span; radius; hide];
              CNil; CNil; CNil]).
Proof.
  intros Hspan Hradius Hhide. unfold cva.
  cbn [variants cva_variants variant_classes].
  rewrite (variant_class_ext _ _ props "columnSpan"), Hspan
    by (by rewrite get_insert_eq).
  rewrite (variant_class_ext _ _ props "borderRadius"), Hradius
    by (by rewrite get_insert_ne, get_insert_eq).
  rewrite (variant_class_ext _ _ props "hideOnMobile"), Hhide
    by (by rewrite !get_insert_ne, get_singleton_eq).
  reflexivity.
Qed.

Lemma image_variants_primitive (props : JsObject) :
  variant_params_primitive props = true →
  ∃ span radius hide,
    variant_class variants props "columnSpan" columnSpanTable = Ok span
    ∧ variant_class variants props "borderRadius" borderRadiusTable = Ok radius
    ∧ variant_class variants props "hideOnMobile" hideOnMobileTable = Ok hide.
Proof.
  unfold variant_params_primitive.
  intros [[Hs Hr]%andb_prop Hh]%andb_prop.
  destruct (variant_class_primitive variants props "columnSpan"
              columnSpanTable Hs eq_refl) as [span ->].
  destruct (variant_class_primitive variants props "borderRadius"
              borderRadiusTable Hr eq_refl) as [radius ->].
  destruct (variant_class_primitive variants props "hideOnMobile"
              hideOnMobileTable Hh eq_refl) as [hide ->].
  by exists span, radius, hide.
Qed.

(** The caption, once the two typography keys are known. *)
Lemma caption_keys (label size color weight : JsValue) (sizeKey weightKey : string) :
  toPropertyKey size = Ok sizeKey →
  toPropertyKey weight = Ok weightKey →
  caption label size color weight
  = Ok (VElem (HostTag "div")
          (<["className" :=
               VStr (clsx [CStr "mt-2 text-center font-sans";
                           table_get fontSizeClasses sizeKey;
                           table_get fontWeightClasses weightKey])]>
             {["style" :=
                 if truthy color
                 then VObj {["color" := color]}
                 else VUndefined]})
          [label]).
Proof. intros Hs Hw. unfold caption. by rewrite Hs, Hw. Qed.

Lemma or_default_primitive (v fallback : JsValue) :
  is_primitive v = true → is_primitive fallback = true →
  is_primitive (or_default v fallback) = true.
Proof. by destruct v. Qed.

Lemma below_image_primitive (props : JsObject) :
  caption_params_primitive props = true →
  ∃ below, below_image props = Ok below.
Proof.
  unfold caption_params_primitive. intros [Hs Hw]%andb_prop.
  unfold below_image. destruct (truthy (get props "label")); [|eauto].
  destruct (toPropertyKey_primitive
              (or_default (get props "labelFontSize") (VStr "base")))
    as [sizeKey Hsize]; [by apply or_default_primitive|].
  destruct (toPropertyKey_primitive
              (or_default (get props "labelFontWeight") (VStr "normal")))
    as [weightKey Hweight]; [by apply or_default_primitive|].
  rewrite (caption_keys _ _ _ _ _ _ Hsize Hweight). eauto.
Qed.

(** The render tree of the tile, from the class string of the container
    and what is rendered below it. *)
Lemma ImageGalleryItem_render (props : JsObject) (ref : JsValue)
    (cls : string) (below : JsValue) :
  cva variants
    (<["columnSpan" := get props "columnSpan"]>
       (<["borderRadius" := get props "borderRadius"]>
          {["hideOnMobile" := get props "hideOnMobile"]})) = Ok cls →
  below_image props = Ok below →
  ImageGalleryItem props ref
  = Ok (VElem (HostTag "div") {["className" := VStr "flex flex-col"]}
          [VElem (HostTag "div")
             {["className" :=
                 VStr (clsx [CStr "relative overflow-hidden"; CStr cls])]}
             [VElem ImageComponent
                (image_props ref (omit declared props)
                   (image_data (get props "src"))) []];
           below]).
Proof.
  intros Hcls Hbelow. unfold ImageGalleryItem. rewrite Hcls.
  unfold below_image in Hbelow. cbn [mbind Result_bind].
  by rewrite Hbelow.
Qed.

Lemma ImageGalleryItem_inv (props : JsObject) (ref : JsValue) (tree : JsValue) :
  ImageGalleryItem props ref = Ok tree →
  ∃ cls below,
    tree = VElem (HostTag "div") {["className" := VStr "flex flex-col"]}
             [VElem (HostTag "div")
                {["className" :=
                    VStr (clsx [CStr "relative overflow-hidden"; CStr cls])]}
                [VElem ImageComponent
                   (image_props ref (omit declared props)
                      (image_data (get props "src"))) []];
              below]
    ∧ below_image props = Ok below.
Proof.
  unfold ImageGalleryItem, below_image.
  destruct (cva variants _) as [cls|]; [|discriminate].
  cbn [mbind Result_bind].
  match goal with |- context [if ?c then ?a else ?b] =>
    destruct (if c then a else b) as [below|] end; [|discriminate].
  intros [= <-]. eauto.
Qed.

Lemma ImageGalleryItem_primitive (props : JsObject) (ref : JsValue) :
  variant_params_primitive props = true →
  caption_params_primitive props = true →
  ∃ tree, ImageGalleryItem props ref = Ok tree.
Proof.
  intros Hv Hc.
  destruct (image_variants_primitive props Hv)
    as (span & radius & hide & Hs & Hr & Hh).
  destruct (below_image_primitive props Hc) as [below Hbelow].
  eexists. eapply ImageGalleryItem_render; [|exact Hbelow].
  by apply image_variant_classes.
Qed.








Lemma image_props_data (ref : JsValue) (rest : JsObject) (data : JsValue) :
  image_props ref rest data !! "data" = Some data.
Proof.
  unfold image_props. rewrite !lookup_insert_ne by done.
  apply lookup_insert_eq.
Qed.

(** C4.  A source given as a bare string [s] reaches the image renderer
    as the record with [url] and [altText] both equal to [s]; a source
    that is a record already reaches it unchanged. *)
Theorem src_normalized (props : JsObject) (ref : JsValue) :
  variant_params_primitive props = true →
  caption_params_primitive props = true →
  ∃ tree ip,
    ImageGalleryItem props ref = Ok tree
    ∧ image_renderer_props tree = Some ip
    ∧ (∀ s, get props "src" = VStr s →
         image_data (get props "src")
         = VObj (<["url" := VStr s]> {["altText" := VStr s]})
         ∧ ip !! "data"
           = Some (VObj (<["url" := VStr s]> {["altText" := VStr s]})))
    ∧ (∀ fields, get props "src" = VObj fields →
         ip !! "data" = Some (VObj fields)).
Proof.
  intros Hv Hc.
  destruct (ImageGalleryItem_primitive props ref Hv Hc) as [tree Hrender].
  destruct (ImageGalleryItem_inv props ref tree Hrender)
    as (cls & below & -> & _).
  eexists _, _. split; [exact Hrender|]. split; [reflexivity|].
  split.
  - intros s Hs. rewrite image_props_data, Hs. done.
  - intros fields Hs. rewrite image_props_data, Hs. done.
Qed.

(** The tile renders as soon as the variant parameters are primitive and
    what goes below the image is known. *)
Lemma ImageGalleryItem_below (props : JsObject) (ref below : JsValue) :
  variant_params_primitive props = true →
  below_image props = Ok below →
  ∃ cls,
    ImageGalleryItem props ref
    = Ok (VElem (HostTag "div") {["className" := VStr "flex flex-col"]}
            [VElem (HostTag "div") {["className" := VStr cls]}
               [VElem ImageComponent
                  (image_props ref (omit declared props)
                     (image_data (get props "src"))) []];
             below]).
Proof.
  intros Hv Hbelow.
  destruct (image_variants_primitive props Hv)
    as (span & radius & hide & Hs & Hr & Hh).
  eexists. eapply ImageGalleryItem_render; [|exact Hbelow].
  by apply image_variant_classes.
Qed.

(** C5.  Without a label, or with the empty string as label, the only
    element under the root is the image container: there is no caption.
    With a non-empty label the root holds the image container and then
    exactly one caption, whose only child is the label text; when the
    font size and the font weight are omitted, the caption carries the
    classes of [base] and [normal]. *)
Theorem caption_rendering (props : JsObject) (ref : JsValue) :
  variant_params_primitive props = true →
  (get props "label" = VUndefined ∨ get props "label" = VStr "" →
     ∃ tree cls,
       ImageGalleryItem props ref = Ok tree
       ∧ rendered_elements tree
         = [VElem (HostTag "div") {["className" := VStr cls]}
              [VElem ImageComponent
                 (image_props ref (omit declared props)
                    (image_data (get props "src"))) []]])
  ∧ (∀ s, get props "label" = VStr s → s ≠ "" →
       caption_params_primitive props = true →
       ∃ tree cls attrs,
         ImageGalleryItem props ref = Ok tree
         ∧ rendered_elements tree
           = [VElem (HostTag "div") {["className" := VStr cls]}
                [VElem ImageComponent
                   (image_props ref (omit declared props)
                      (image_data (get props "src"))) []];
              VElem (HostTag "div") attrs [VStr s]]
         ∧ (get props "labelFontSize" = VUndefined →
            get props "labelFontWeight" = VUndefined →
            attrs !! "className"
            = Some (VStr "mt-2 text-center font-sans text-base font-normal"))).
Proof.
  intros Hv. split.
  - intros Hlabel.
    destruct (ImageGalleryItem_below props ref (get props "label") Hv)
      as [cls Hrender].
    { unfold below_image. by destruct Hlabel as [-> | ->]. }
    eexists _, cls. split; [exact Hrender|].
    by destruct Hlabel as [-> | ->].
  - intros s Hlabel Hs Hc.
    destruct (below_image_primitive props Hc) as [below Hbelow].
    destruct (ImageGalleryItem_below props ref below Hv Hbelow)
      as [cls Hrender].
    unfold below_image, caption in Hbelow. rewrite Hlabel in Hbelow.
    assert (truthy (VStr s) = true) as Htruthy by (by destruct s).
    rewrite Htruthy in Hbelow.
    destruct (toPropertyKey (or_default (get props "labelFontSize") _))
      as [sizeKey|] eqn:Hsize; [|discriminate].
    destruct (toPropertyKey (or_default (get props "labelFontWeight") _))
      as [weightKey|] eqn:Hweight; [|discriminate].
    injection Hbelow as <-.
    eexists _, cls, _. split; [exact Hrender|]. split; [reflexivity|].
    intros Hfs Hfw. rewrite Hfs in Hsize. rewrite Hfw in Hweight.
    injection Hsize as <-. injection Hweight as <-.
    by rewrite lookup_insert_eq.
Qed.

(** C10.  Whenever a caption is rendered, it has an inline style exactly
    when the label color is a non-empty string: without a label color, or
    with the empty string, its style is [undefined]; with a non-empty
    string [c] its style is the record whose [color] is [c]. *)
Theorem caption_color_style (props : JsObject) (ref : JsValue) :
  variant_params_primitive props = true →
  caption_params_primitive props = true →
  truthy (get props "label") = true →
  ∃ tree container attrs,
    ImageGalleryItem props ref = Ok tree
    ∧ rendered_elements tree
      = [container; VElem (HostTag "div") attrs [get props "label"]]
    ∧ (get props "labelColor" = VUndefined ∨ get props "labelColor" = VStr "" →
         get attrs "style" = VUndefined)
    ∧ (∀ c, get props "labelColor" = VStr c → c ≠ "" →
         get attrs "style" = VObj {["color" := VStr c]}).
Proof.
  intros Hv Hc Hlabel.
  destruct (ImageGalleryItem_primitive props ref Hv Hc) as [tree Hrender].
  destruct (ImageGalleryItem_inv props ref tree Hrender)
    as (cls & below & -> & Hbelow).
  unfold below_image, caption in Hbelow. rewrite Hlabel in Hbelow.
  destruct (toPropertyKey (or_default (get props "labelFontSize") _))
    as [sizeKey|]; [|discriminate].
  destruct (toPropertyKey (or_default (get props "labelFontWeight") _))
    as [weightKey|]; [|discriminate].
  injection Hbelow as <-.
  eexists _, _, _. split; [exact Hrender|]. split; [reflexivity|].
  rewrite get_insert_ne, get_singleton_eq by done. split.
  - by intros [->| ->].
  - intros c -> Hne. by destruct c.
Qed.

Lemma omit_insert_declared (k : string) (v : JsValue) (props : JsObject) :
  k ∈ declared → omit declared (<[k := v]> props) = omit declared props.
Proof.
  intros Hk. apply map_eq. intros k'. rewrite !lookup_omit.
  destruct (decide (k' ∈ declared)) as [|Hout]; [done|].
  apply lookup_insert_ne. by intros ->.
Qed.

(** C6.  With the border radius omitted the tile renders exactly as with
    a border radius of 8: the variant selects [rounded-lg], and the image
    container carries it.  The schema declares 0 as the default of the same
    input, and the two defaults differ. *)
Theorem border_radius_defaults :
  (∀ props ref, get props "borderRadius" = VUndefined →
     ImageGalleryItem props ref
     = ImageGalleryItem (<["borderRadius" := VNum 8]> props) ref)
  ∧ (∀ props, get props "borderRadius" = VUndefined →
       variant_class variants props "borderRadius" borderRadiusTable
       = Ok (CStr "rounded-lg"))
  ∧ (∀ props ref,
       variant_params_primitive props = true →
       caption_params_primitive props = true →
       get props "borderRadius" = VUndefined →
       ∃ tree span hide,
         ImageGalleryItem props ref = Ok tree
         ∧ container_class tree
           = VStr (clsx [CStr "relative overflow-hidden";
                         CStr (clsx [CStr "relative h-[--image-height]";
                                     CArr [span; CStr "rounded-lg"; hide];
                                     CNil; CNil; CNil])]))
  ∧ get (cva_defaultVariants variants) "borderRadius" = VNum 8
  ∧ input_defaultValue <$> find_input schema "borderRadius" = Some (VNum 0)
  ∧ get (cva_defaultVariants variants) "borderRadius"
    ≠ default VUndefined
        (input_defaultValue <$> find_input schema "borderRadius").
Proof.
  assert (∀ props, get props "borderRadius" = VUndefined →
            variant_class variants props "borderRadius" borderRadiusTable
            = Ok (CStr "rounded-lg")) as Homitted.
  { intros props Hradius.
    by rewrite (variant_class_omitted variants props "borderRadius"
                  borderRadiusTable 8 Hradius eq_refl). }
  split; [|split; [exact Homitted|split; [|split; [|split]]]]; try done.
  - intros props ref Hradius. unfold ImageGalleryItem.
    rewrite omit_insert_declared by decide_names.
    rewrite get_insert_eq, !get_insert_ne by done.
    assert (cva variants
              (<["columnSpan" := get props "columnSpan"]>
                 (<["borderRadius" := get props "borderRadius"]>
                    {["hideOnMobile" := get props "hideOnMobile"]}))
            = cva variants
                (<["columnSpan" := get props "columnSpan"]>
                   (<["borderRadius" := VNum 8]>
                      {["hideOnMobile" := get props "hideOnMobile"]})))
      as ->; [|reflexivity].
    unfold cva. cbn [variants cva_variants variant_classes].
    rewrite (variant_class_ext _ _ props "columnSpan")
      by (by rewrite get_insert_eq).
    rewrite (variant_class_omitted _ _ "borderRadius" borderRadiusTable 8);
      [|by rewrite get_insert_ne, get_insert_eq|reflexivity].
    rewrite (variant_class_ext _ _ props "hideOnMobile")
      by (by rewrite !get_insert_ne, get_singleton_eq).
    symmetry.
    rewrite (variant_class_ext _ _ props "columnSpan")
      by (by rewrite get_insert_eq).
    rewrite (variant_class_number _ _ "borderRadius" borderRadiusTable 8)
      by (by rewrite get_insert_ne, get_insert_eq).
    rewrite (variant_class_ext _ _ props "hideOnMobile")
      by (by rewrite !get_insert_ne, get_singleton_eq).
    reflexivity.
  - intros props ref Hv Hc Hradius.
    destruct (image_variants_primitive props Hv)
      as (span & radius & hide & Hs & Hr & Hh).
    destruct (below_image_primitive props Hc) as [below Hbelow].
    pose proof (image_variant_classes props span _ hide Hs
                  (Homitted props Hradius) Hh) as Hcls.
    eexists _, span, hide.
    split; [exact (ImageGalleryItem_render props ref _ below Hcls Hbelow)|].
    apply get_singleton_eq.
Qed.

End image_tile.

(** ** Pass-through of the remaining properties *)

Section pass_through.

Lemma TestimonialsItems_inv (props : JsObject) (ref tree : JsValue) :
  Testimonials.TestimonialsItems props ref = Ok tree →
  ∃ cls kids,
    tree = VElem (HostTag "div")
             (<["className" := VStr cls]>
                (spread_over {["ref" := ref]}
                   (omit Testimonials.declared props)))
             kids.
Proof.
  unfold Testimonials.TestimonialsItems.
  destruct (cva Testimonials.variants _) as [cls|]; [|discriminate].
  cbn [mbind Result_bind].
  destruct (optional_filter _ (at_residue 0)) as [c0|]; [|discriminate].
  cbn [mbind Result_bind].
  destruct (optional_filter _ (at_residue 1)) as [c1|]; [|discriminate].
  cbn [mbind Result_bind].
  destruct (optional_filter _ (at_residue 2)) as [c2|]; [|discriminate].
  intros [= <-]. eauto.
Qed.

(** A property outside [names] survives the rest pattern and the spread
    over the forwarded ref. *)
Lemma lookup_rest_forwarded (names : list string) (props : JsObject)
    (ref : JsValue) (k : string) (v : JsValue) :
  props !! k = Some v → k ∉ names →
  spread_over {["ref" := ref]} (omit names props) !! k = Some v.
Proof.
  intros Hk Hout. rewrite lookup_spread_over, lookup_omit.
  destruct (decide (k ∈ names)); [done|]. by rewrite Hk.
Qed.

Lemma lookup_rest_declared (names : list string) (props : JsObject)
    (ref : JsValue) (k : string) :
  k ∈ names → k ≠ "ref" →
  spread_over {["ref" := ref]} (omit names props) !! k = None.
Proof.
  intros Hin Href. rewrite lookup_spread_over, lookup_omit.
  destruct (decide (k ∈ names)); [|done]. by apply lookup_singleton_ne.
Qed.

(** C8, as amended.  Both components render whenever their style
    parameters are primitive (and, for the layout, the children are a
    sequence).  In whatever they render, a property that is neither a
    declared parameter nor an attribute the component sets itself after
    the spread ([className] for the layout; [className], [data-motion],
    [loading], [data], [width], [height] and [sizes] for the tile) reaches
    the root container, respectively the image renderer, with its value
    unchanged; no declared parameter reaches it. *)
Theorem rest_forwarded (props : JsObject) (ref : JsValue) :
  (∀ items,
     is_primitive (get props "gap") = true →
     Testimonials.child_sequence (get props "children") = Some items →
     ∃ tree, Testimonials.TestimonialsItems props ref = Ok tree)
  ∧ (∀ tree, Testimonials.TestimonialsItems props ref = Ok tree →
       (∀ k v, props !! k = Some v → k ∉ Testimonials.declared →
               k ≠ "className" →
               Testimonials.attributes tree !! k = Some v)
       ∧ (∀ k, k ∈ Testimonials.declared →
               Testimonials.attributes tree !! k = None))
  ∧ (ImageGallery.variant_params_primitive props = true →
     ImageGallery.caption_params_primitive props = true →
     ∃ tree, ImageGallery.ImageGalleryItem props ref = Ok tree)
  ∧ (∀ tree, ImageGallery.ImageGalleryItem props ref = Ok tree →
       ∃ ip, ImageGallery.image_renderer_props tree = Some ip
         ∧ (∀ k v, props !! k = Some v → k ∉ ImageGallery.declared →
                   k ∉ ImageGallery.own_attributes →
                   ip !! k = Some v)
         ∧ (∀ k, k ∈ ImageGallery.declared → ip !! k = None)).
Proof.
  split; [|split; [|split]].
  - intros items Hgap Hseq.
    destruct (gap_class_primitive _ Hgap) as [cls Hcls].
    destruct (TestimonialsItems_sequence props ref cls items Hcls Hseq)
      as (c0 & c1 & c2 & Hrender & _).
    eauto.
  - intros tree Hrender.
    destruct (TestimonialsItems_inv props ref tree Hrender)
      as (cls & kids & ->).
    cbn [Testimonials.attributes]. split.
    + intros k v Hk Hout Hclass. rewrite lookup_insert_ne by done.
      by apply lookup_rest_forwarded.
    + intros k Hin.
      assert (k ≠ "className" ∧ k ≠ "ref") as [Hclass Href].
      { unfold Testimonials.declared in Hin.
        repeat (apply elem_of_cons in Hin as [->|Hin]); [done..|].
        by apply elem_of_nil in Hin. }
      rewrite lookup_insert_ne by done.
      by apply lookup_rest_declared.
  - apply ImageGalleryItem_primitive.
  - intros tree Hrender.
    destruct (ImageGalleryItem_inv props ref tree Hrender)
      as (cls & below & -> & _).
    eexists. split; [reflexivity|]. unfold ImageGallery.image_props. split.
    + intros k v Hk Hout Hown.
      unfold ImageGallery.own_attributes in Hown.
      rewrite !lookup_insert_ne by (intros <-; apply Hown; set_solver).
      by apply lookup_rest_forwarded.
    + intros k Hin.
      assert (Forall (λ name, k ≠ name)
                ("ref" :: ImageGallery.own_attributes)) as Hne.
      { unfold ImageGallery.declared in Hin.
        repeat (apply elem_of_cons in Hin as [->|Hin]);
          [by repeat constructor..|].
        by apply elem_of_nil in Hin. }
      unfold ImageGallery.own_attributes in Hne.
      repeat match goal with
             | H : Forall _ (_ :: _) |- _ => apply Forall_cons in H as [? H]
             end.
      rewrite !lookup_insert_ne by done.
      by apply lookup_rest_declared.
Qed.

(** C8, as stated, fails: [className] is not a declared parameter of the
    layout, yet the root container carries the layout's own class string
    instead of the value received. *)
Lemma className_not_forwarded :
  ("className" ∉ Testimonials.declared)
  ∧ (∃ tree,
       Testimonials.TestimonialsItems {["className" := VStr "mine"]} VNull
       = Ok tree
       ∧ Testimonials.attributes tree !! "className"
         = Some (VStr "grid lg:grid-cols-3 gap-8")
       ∧ Testimonials.attributes tree !! "className"
         ≠ ({["className" := VStr "mine"]} : JsObject) !! "className").
Proof.
  split.
  - decide_names.
  - eexists. split; [vm_compute; reflexivity|].
    split; [vm_compute; reflexivity|]. vm_compute. intros [=].
Qed.

End pass_through.

(** ** Schemas and parameters *)

(** C9.  The schema of the image tile declares the input [to] ("Link to"),
    which the tile does not take out of its properties: it is the one
    input without a parameter, while every parameter of the tile has an
    input.  Given a source and a [to], the tile renders the image container
    and nothing below it, [to] travelling with the rest to the image
    renderer.  The schema of the layout binds [gap] only, which the layout
    consumes. *)
Theorem schema_link_input_unconsumed :
  unconsumed_inputs ImageGallery.schema ImageGallery.declared = ["to"]
  ∧ unbound_parameters ImageGallery.schema ImageGallery.declared = []
  ∧ unconsumed_inputs Testimonials.schema Testimonials.declared = []
  ∧ input_names Testimonials.schema = ["gap"]
  ∧ ImageGallery.ImageGalleryItem
      (<["src" := VStr "foo.jpg"]> {["to" := VStr "/products"]}) VNull
    = Ok (VElem (HostTag "div") {["className" := VStr "flex flex-col"]}
            [VElem (HostTag "div")
               {["className" :=
                   VStr "relative overflow-hidden relative h-[--image-height] col-span-1 rounded-lg"]}
               [VElem ImageComponent
                  (ImageGallery.image_props VNull
                     {["to" := VStr "/products"]}
                     (VObj (<["url" := VStr "foo.jpg"]>
                              {["altText" := VStr "foo.jpg"]}))) []];
             VUndefined]).
Proof. repeat split; vm_compute; reflexivity. Qed.

(** * Instances *)

(** Four children: the tracks hold two, one and one of them. *)
Lemma tracks_partition_witness :
  let props : JsObject :=
    <["gap" := VNum 24]>
      {["children" := VArr [VStr "a"; VStr "b"; VStr "c"; VStr "d"]]} in
  is_primitive (get props "gap") = true
  ∧ Testimonials.child_sequence (get props "children")
    = Some [VStr "a"; VStr "b"; VStr "c"; VStr "d"]
  ∧ (∃ tree t0 t1 t2,
       Testimonials.TestimonialsItems props VNull = Ok tree
       ∧ Testimonials.tracks tree = [t0; t1; t2]
       ∧ length t0 + length t1 + length t2 = 4).
Proof.
  intros props. split; [reflexivity|]. split; [reflexivity|].
  destruct (tracks_partition props VNull
              [VStr "a"; VStr "b"; VStr "c"; VStr "d"] eq_refl eq_refl)
    as (attrs & c0 & c1 & c2 & t0 & t1 & t2 & Hrender & Htracks & _ & _ & _
        & Hsum & _).
  exists (VElem (HostTag "div") attrs
            [Testimonials.track c0; Testimonials.track c1;
             Testimonials.track c2]), t0, t1, t2.
  split; [exact Hrender|]. split; [exact Htracks|exact Hsum].
Defined.

(** A gap of 24 with no children, and a gap of 20 with no children. *)
Lemma gap_spacing_class_witness :
  Testimonials.child_sequence (get {["gap" := VNum 24]} "children") = Some []
  ∧ Testimonials.renders_with_class {["gap" := VNum 24]} VNull
      "grid lg:grid-cols-3 gap-6"
  ∧ Testimonials.renders_with_class {["gap" := VNum 20]} VNull
      "grid lg:grid-cols-3".
Proof.
  split; [reflexivity|]. split.
  - destruct (gap_spacing_class {["gap" := VNum 24]} VNull [])
      as (_ & H24 & _); [reflexivity|].
    apply H24. reflexivity.
  - destruct (gap_spacing_class {["gap" := VNum 20]} VNull [])
      as (_ & _ & _ & _ & _ & Hout); [reflexivity|].
    apply (Hout 20%Z); [reflexivity|lia..].
Defined.


(** The source "foo.jpg". *)
Lemma src_normalized_witness :
  let props : JsObject := {["src" := VStr "foo.jpg"]} in
  ImageGallery.variant_params_primitive props = true
  ∧ ImageGallery.caption_params_primitive props = true
  ∧ (∃ tree ip,
       ImageGallery.ImageGalleryItem props VNull = Ok tree
       ∧ ImageGallery.image_renderer_props tree = Some ip
       ∧ ip !! "data"
         = Some (VObj (<["url" := VStr "foo.jpg"]>
                         {["altText" := VStr "foo.jpg"]}))).
Proof.
  intros props. split; [reflexivity|]. split; [reflexivity|].
  destruct (src_normalized props VNull eq_refl eq_refl)
    as (tree & ip & Hrender & Hip & Hstring & _).
  exists tree, ip. split; [exact Hrender|]. split; [exact Hip|].
  apply (Hstring "foo.jpg"). reflexivity.
Defined.

(** The label "Caption", with font size and font weight omitted. *)
Lemma caption_rendering_witness :
  let props : JsObject :=
    <["src" := VStr "foo.jpg"]> {["label" := VStr "Caption"]} in
  ImageGallery.variant_params_primitive props = true
  ∧ ImageGallery.caption_params_primitive props = true
  ∧ (∃ tree container attrs,
       ImageGallery.ImageGalleryItem props VNull = Ok tree
       ∧ ImageGallery.rendered_elements tree
         = [container; VElem (HostTag "div") attrs [VStr "Caption"]]
       ∧ attrs !! "className"
         = Some (VStr "mt-2 text-center font-sans text-base font-normal")).
Proof.
  intros props. split; [reflexivity|]. split; [reflexivity|].
  destruct (caption_rendering props VNull eq_refl) as [_ Hcaption].
  destruct (Hcaption "Caption" eq_refl) as (tree & cls & attrs & Hrender
                                            & Helements & Hclass);
    [discriminate|reflexivity|].
  eexists tree, _, attrs. split; [exact Hrender|].
  split; [exact Helements|]. apply Hclass; reflexivity.
Defined.

(** A tile given only its source. *)
Lemma border_radius_defaults_witness :
  get {["src" := VStr "foo.jpg"]} "borderRadius" = VUndefined
  ∧ ImageGallery.ImageGalleryItem {["src" := VStr "foo.jpg"]} VNull
    = ImageGallery.ImageGalleryItem
        (<["borderRadius" := VNum 8]> {["src" := VStr "foo.jpg"]}) VNull.
Proof.
  split; [reflexivity|].
  apply (proj1 border_radius_defaults). reflexivity.
Defined.

(** Seven text children. *)
Lemma seven_children_gap_24_witness :
  let props : JsObject :=
    <["gap" := VNum 24]>
      {["children" :=
          VArr [VStr "0"; VStr "1"; VStr "2"; VStr "3"; VStr "4"; VStr "5";
                VStr "6"]]} in
  get props "gap" = VNum 24
  ∧ (∃ tree,
       Testimonials.TestimonialsItems props VNull = Ok tree
       ∧ Testimonials.tracks tree
         = [[VStr "0"; VStr "3"; VStr "6"]; [VStr "1"; VStr "4"];
            [VStr "2"; VStr "5"]]
       ∧ map length (Testimonials.tracks tree) = [3; 2; 2]
       ∧ get (Testimonials.attributes tree) "className"
         = VStr "grid lg:grid-cols-3 gap-6").
Proof.
  intros props. split; [reflexivity|].
  apply (seven_children_gap_24 props VNull); reflexivity.
Defined.

(** A custom attribute on the layout and on the tile. *)
Lemma rest_forwarded_witness :
  let props : JsObject :=
    <["src" := VStr "foo.jpg"]>
      (<["gap" := VNum 16]> {["data-id" := VStr "x"]}) in
  is_primitive (get props "gap") = true
  ∧ ImageGallery.variant_params_primitive props = true
  ∧ ImageGallery.caption_params_primitive props = true
  ∧ (∃ tree,
       Testimonials.TestimonialsItems props VNull = Ok tree
       ∧ Testimonials.attributes tree !! "data-id" = Some (VStr "x")
       ∧ Testimonials.attributes tree !! "gap" = None)
  ∧ (∃ tree ip,
       ImageGallery.ImageGalleryItem props VNull = Ok tree
       ∧ ImageGallery.image_renderer_props tree = Some ip
       ∧ ip !! "data-id" = Some (VStr "x")
       ∧ ip !! "src" = None).
Proof.
  intros props. split; [reflexivity|]. split; [reflexivity|].
  split; [reflexivity|].
  destruct (rest_forwarded props VNull) as (Hlayout & Hroot & Htile & Himage).
  split.
  - destruct (Hlayout [] eq_refl eq_refl) as [tree Hrender].
    destruct (Hroot tree Hrender) as [Hrest Hdeclared].
    exists tree. split; [exact Hrender|]. split.
    + apply Hrest; [reflexivity|decide_names|discriminate].
    + apply Hdeclared. decide_names.
  - destruct (Htile eq_refl eq_refl) as [tree Hrender].
    destruct (Himage tree Hrender) as (ip & Hip & Hrest & Hdeclared).
    exists tree, ip. split; [exact Hrender|]. split; [exact Hip|]. split.
    + apply Hrest; [reflexivity|decide_names..].
    + apply Hdeclared. decide_names.
Defined.

(** A red caption. *)
Lemma caption_color_style_witness :
  let props : JsObject :=
    <["label" := VStr "Caption"]> {["labelColor" := VStr "red"]} in
  ImageGallery.variant_params_primitive props = true
  ∧ ImageGallery.caption_params_primitive props = true
  ∧ truthy (get props "label") = true
  ∧ (∃ tree container attrs,
       ImageGallery.ImageGalleryItem props VNull = Ok tree
       ∧ ImageGallery.rendered_elements tree
         = [container; VElem (HostTag "div") attrs [VStr "Caption"]]
       ∧ get attrs "style" = VObj {["color" := VStr "red"]}).
Proof.
  intros props. split; [reflexivity|]. split; [reflexivity|].
  split; [reflexivity|].
  destruct (caption_color_style props VNull eq_refl eq_refl eq_refl)
    as (tree & container & attrs & Hrender & Helements & _ & Hcolor).
  exists tree, container, attrs. split; [exact Hrender|].
  split; [exact Helements|]. apply (Hcolor "red"); [reflexivity|discriminate].
Defined.


(** * Further properties *)

(** ** The grouped-items layout: children and tracks *)

(** X1.  Children that are neither an array nor absent (a single element,
    a string) make the layout throw: only an array has a [filter]. *)
Theorem layout_throws_without_sequence (props : JsObject) (ref : JsValue) :
  Testimonials.child_sequence (get props "children") = None →
  Testimonials.TestimonialsItems props ref = Throw TypeError.
Proof.
  intros Hseq. unfold Testimonials.TestimonialsItems.
  destruct (cva Testimonials.variants _) as [cls|e];
    cbn [mbind Result_bind]; [|apply Throw_TypeError].
  by destruct (get props "children").
Qed.

Lemma layout_throws_without_sequence_witness :
  Testimonials.child_sequence
    (get {["children" := VElem (HostTag "p") ∅ []]} "children") = None
  ∧ Testimonials.TestimonialsItems
      {["children" := VElem (HostTag "p") ∅ []]} VNull = Throw TypeError.
Proof.
  split; [reflexivity|].
  apply (layout_throws_without_sequence
           {["children" := VElem (HostTag "p") ∅ []]} VNull).
  reflexivity.
Defined.

Lemma at_residue_eq (j : nat) (x : JsValue) (i : nat) :
  at_residue j x i = (i mod 3 =? j)%nat.
Proof. reflexivity. Qed.

Lemma filter_from_residues_perm (items : list JsValue) :
  ∀ s,
    filter_from (at_residue 0) s items
    ++ filter_from (at_residue 1) s items
    ++ filter_from (at_residue 2) s items ≡ₚ items.
Proof.
  induction items as [|x items IH]; intros s; [done|].
  cbn [filter_from]. rewrite !at_residue_eq.
  assert (s mod 3 < 3) as Hlt by lia.
  destruct (s mod 3) as [|[|[|r]]]; [| | |lia]; cbn [Nat.eqb].
  - rewrite <-app_comm_cons. f_equiv. apply IH.
  - rewrite <-app_comm_cons, <-Permutation_middle. f_equiv. apply IH.
  - rewrite app_assoc, <-Permutation_middle, <-app_assoc. f_equiv. apply IH.
Qed.

(** X2.  The layout neither loses nor repeats a child: the three tracks
    together hold exactly the children, each as often as it was given. *)
Theorem tracks_permutation (props : JsObject) (ref : JsValue)
    (items : list JsValue) :
  is_primitive (get props "gap") = true →
  Testimonials.child_sequence (get props "children") = Some items →
  ∃ tree,
    Testimonials.TestimonialsItems props ref = Ok tree
    ∧ concat (Testimonials.tracks tree) ≡ₚ items.
Proof.
  intros Hgap Hseq.
  destruct (gap_class_primitive _ Hgap) as [cls Hcls].
  destruct (TestimonialsItems_sequence props ref cls items Hcls Hseq)
    as (c0 & c1 & c2 & Hrender & H0 & H1 & H2).
  eexists. split; [exact Hrender|].
  cbn [Testimonials.tracks map Testimonials.track Testimonials.track_items
       concat].
  rewrite H0, H1, H2, app_nil_r. apply filter_from_residues_perm.
Qed.

Lemma tracks_permutation_witness :
  let props : JsObject :=
    {["children" := VArr [VStr "a"; VStr "b"; VStr "a"; VStr "c"]]} in
  is_primitive (get props "gap") = true
  ∧ Testimonials.child_sequence (get props "children")
    = Some [VStr "a"; VStr "b"; VStr "a"; VStr "c"]
  ∧ (∃ tree,
       Testimonials.TestimonialsItems props VNull = Ok tree
       ∧ concat (Testimonials.tracks tree)
         ≡ₚ [VStr "a"; VStr "b"; VStr "a"; VStr "c"]).
Proof.
  intros props. split; [reflexivity|]. split; [reflexivity|].
  apply (tracks_permutation props VNull); reflexivity.
Defined.

(** X3.  The tracks depend on the children only.  Each of the three is a
    [div] of class [space-y-6], whatever the gap, and two renderings of the
    same children have the same three tracks, whatever else differs. *)
Theorem tracks_depend_on_children_only (props props' : JsObject)
    (ref ref' tree tree' : JsValue) :
  get props "children" = get props' "children" →
  Testimonials.TestimonialsItems props ref = Ok tree →
  Testimonials.TestimonialsItems props' ref' = Ok tree' →
  element_children tree = element_children tree'
  ∧ length (element_children tree) = 3
  ∧ Forall (λ t, ∃ content,
              t = VElem (HostTag "div") {["className" := VStr "space-y-6"]}
                    [content])
      (element_children tree).
Proof.
  unfold Testimonials.TestimonialsItems. intros <-.
  destruct (cva Testimonials.variants {["gap" := get props "gap"]})
    as [cls|]; [|discriminate].
  destruct (cva Testimonials.variants {["gap" := get props' "gap"]})
    as [cls'|]; [|discriminate].
  cbn [mbind Result_bind].
  destruct (optional_filter _ (at_residue 0)) as [c0|]; [|discriminate].
  destruct (optional_filter _ (at_residue 1)) as [c1|]; [|discriminate].
  destruct (optional_filter _ (at_residue 2)) as [c2|]; [|discriminate].
  cbn [mbind Result_bind]. intros [= <-] [= <-].
  split; [reflexivity|]. split; [reflexivity|].
  repeat constructor; by eexists.
Qed.

Lemma tracks_depend_on_children_only_witness :
  let props : JsObject :=
    <["gap" := VNum 16]> {["children" := VArr [VStr "a"; VStr "b"]]} in
  let props' : JsObject :=
    <["gap" := VNum 40]> {["children" := VArr [VStr "a"; VStr "b"]]} in
  ∃ tree tree',
    Testimonials.TestimonialsItems props VNull = Ok tree
    ∧ Testimonials.TestimonialsItems props' VNull = Ok tree'
    ∧ element_children tree = element_children tree'.
Proof.
  intros props props'.
  destruct (Testimonials.TestimonialsItems props VNull) as [tree|] eqn:Hr;
    [|discriminate Hr].
  destruct (Testimonials.TestimonialsItems props' VNull) as [tree'|] eqn:Hr';
    [|discriminate Hr'].
  exists tree, tree'. split; [reflexivity|]. split; [reflexivity|].
  apply (tracks_depend_on_children_only props props' VNull VNull tree tree'
           eq_refl Hr Hr').
Defined.

(** ** Where the ref and the fixed attributes go *)

(** X4.  The layout hands the forwarded ref to its root container. *)
Theorem layout_ref_forwarded (props : JsObject) (ref tree : JsValue) :
  Testimonials.TestimonialsItems props ref = Ok tree →
  props !! "ref" = None →
  Testimonials.attributes tree !! "ref" = Some ref.
Proof.
  intros Hrender Href.
  destruct (TestimonialsItems_inv props ref tree Hrender) as (cls & kids & ->).
  cbn [Testimonials.attributes].
  rewrite lookup_insert_ne by done.
  rewrite lookup_spread_over, lookup_omit.
  destruct (decide ("ref" ∈ Testimonials.declared)); [|rewrite Href];
    apply lookup_singleton_eq.
Qed.

Lemma layout_ref_forwarded_witness :
  let props : JsObject := {["gap" := VNum 16]} in
  let ref := VObj {["current" := VNull]} in
  ∃ tree,
    Testimonials.TestimonialsItems props ref = Ok tree
    ∧ props !! "ref" = None
    ∧ Testimonials.attributes tree !! "ref" = Some ref.
Proof.
  intros props ref.
  destruct (Testimonials.TestimonialsItems props ref) as [tree|] eqn:Hr;
    [|discriminate Hr].
  exists tree. split; [reflexivity|]. split; [reflexivity|].
  apply (layout_ref_forwarded props ref tree Hr). reflexivity.
Defined.

(** X5.  Whatever the tile renders has one shape: a root [div] whose only
    attribute is the class [flex flex-col], holding the image container,
    whose only attribute is its class, and then what goes below it; the
    container holds the image renderer alone.  The forwarded ref is handed
    to the image renderer, so neither it nor any incoming property reaches
    the root or the container. *)
Theorem tile_shape (props : JsObject) (ref tree : JsValue) :
  ImageGallery.ImageGalleryItem props ref = Ok tree →
  ∃ cls ip below,
    tree = VElem (HostTag "div") {["className" := VStr "flex flex-col"]}
             [VElem (HostTag "div") {["className" := VStr cls]}
                [VElem ImageComponent ip []];
              below]
    ∧ (props !! "ref" = None → ip !! "ref" = Some ref).
Proof.
  intros Hrender.
  destruct (ImageGalleryItem_inv props ref tree Hrender)
    as (cls & below & -> & _).
  eexists _, _, _. split; [reflexivity|]. intros Href.
  unfold ImageGallery.image_props. rewrite !lookup_insert_ne by done.
  rewrite lookup_spread_over, lookup_omit.
  destruct (decide ("ref" ∈ ImageGallery.declared)); [|rewrite Href];
    apply lookup_singleton_eq.
Qed.

Lemma tile_shape_witness :
  let props : JsObject :=
    <["src" := VStr "foo.jpg"]> {["data-id" := VStr "x"]} in
  let ref := VObj {["current" := VNull]} in
  ∃ tree cls ip below,
    ImageGallery.ImageGalleryItem props ref = Ok tree
    ∧ tree = VElem (HostTag "div") {["className" := VStr "flex flex-col"]}
               [VElem (HostTag "div") {["className" := VStr cls]}
                  [VElem ImageComponent ip []];
                below]
    ∧ ip !! "ref" = Some ref.
Proof.
  intros props ref.
  destruct (ImageGallery.ImageGalleryItem props ref) as [tree|] eqn:Hr;
    [|discriminate Hr].
  destruct (tile_shape props ref tree Hr) as (cls & ip & below & Htree & Href).
  exists tree, cls, ip, below. split; [reflexivity|]. split; [exact Htree|].
  apply Href. reflexivity.
Defined.

(** X6.  The attributes the tile writes after the spread cannot be changed
    from outside: whatever the incoming properties hold under these names,
    the image renderer is told to load lazily, with width 800, height 600,
    the tile's size hint, its motion tag and its own class. *)
Theorem tile_fixed_attributes (props : JsObject) (ref tree : JsValue) :
  ImageGallery.ImageGalleryItem props ref = Ok tree →
  ∃ ip,
    ImageGallery.image_renderer_props tree = Some ip
    ∧ ip !! "loading" = Some (VStr "lazy")
    ∧ ip !! "width" = Some (VNum 800)
    ∧ ip !! "height" = Some (VNum 600)
    ∧ ip !! "sizes" = Some (VStr "(min-width: 45em) 50vw, 100vw")
    ∧ ip !! "data-motion" = Some (VStr "slide-in")
    ∧ ip !! "className"
      = Some (VStr "w-full h-full object-cover transition-transform duration-300 hover:scale-105").
Proof.
  intros Hrender.
  destruct (ImageGalleryItem_inv props ref tree Hrender)
    as (cls & below & -> & _).
  eexists. split; [reflexivity|]. unfold ImageGallery.image_props.
  repeat split;
    repeat (rewrite lookup_insert_ne by done); apply lookup_insert_eq.
Qed.

Lemma tile_fixed_attributes_witness :
  let props : JsObject :=
    <["src" := VStr "foo.jpg"]>
      (<["loading" := VStr "eager"]> {["width" := VNum 10]}) in
  ∃ tree ip,
    ImageGallery.ImageGalleryItem props VNull = Ok tree
    ∧ ImageGallery.image_renderer_props tree = Some ip
    ∧ ip !! "loading" = Some (VStr "lazy")
    ∧ ip !! "width" = Some (VNum 800).
Proof.
  intros props.
  destruct (ImageGallery.ImageGalleryItem props VNull) as [tree|] eqn:Hr;
    [|discriminate Hr].
  destruct (tile_fixed_attributes props VNull tree Hr)
    as (ip & Hip & Hloading & Hwidth & _).
  exists tree, ip. split; [reflexivity|]. split; [exact Hip|].
  split; [exact Hloading|exact Hwidth].
Defined.

(** ** Defaults of the schemas and defaults of the components *)

Lemma omit_insert_named (names : list string) (k : string) (v : JsValue)
    (props : JsObject) :
  k ∈ names → omit names (<[k := v]> props) = omit names props.
Proof.
  intros Hk. apply map_eq. intros k'. rewrite !lookup_omit.
  destruct (decide (k' ∈ names)) as [|Hout]; [done|].
  apply lookup_insert_ne. by intros ->.
Qed.

(** A variant left out and the same variant given its default select the
    same class. *)
Lemma variant_class_default (cfg : CvaConfig) (p1 p2 : JsObject)
    (variant : string) (table : gmap string string) :
  get p1 variant = VUndefined →
  get p2 variant = get (cva_defaultVariants cfg) variant →
  get (cva_defaultVariants cfg) variant ≠ VNull →
  variant_class cfg p1 variant table = variant_class cfg p2 variant table.
Proof.
  intros H1 H2 Hnull. unfold variant_class, js_or. rewrite H1, H2.
  destruct (get (cva_defaultVariants cfg) variant) as [| |[]|[| |]|[|]| | |];
    done.
Qed.

(** X8.  The schema of the layout and the layout agree on the default gap:
    leaving the gap out renders exactly what the schema's default value
    renders. *)
Theorem layout_schema_default (props : JsObject) (ref : JsValue)
    (input : SchemaInput) :
  get props "gap" = VUndefined →
  find_input Testimonials.schema "gap" = Some input →
  Testimonials.TestimonialsItems props ref
  = Testimonials.TestimonialsItems
      (<["gap" := input_defaultValue input]> props) ref.
Proof.
  intros Hgap [= <-]. cbn [input_defaultValue].
  unfold Testimonials.TestimonialsItems.
  rewrite omit_insert_named by decide_names.
  rewrite get_insert_eq, get_insert_ne, Hgap by done.
  reflexivity.
Qed.

Lemma layout_schema_default_witness :
  let props : JsObject := {["children" := VArr [VStr "a"]]} in
  get props "gap" = VUndefined
  ∧ Testimonials.TestimonialsItems props VNull
    = Testimonials.TestimonialsItems (<["gap" := VNum 32]> props) VNull.
Proof.
  intros props. split; [reflexivity|].
  apply (layout_schema_default props VNull
           {| input_type := "range";
              input_name := "gap";
              input_label := "Items gap";
              input_configs := Some (range_configs 16 40 8 (Some "px"));
              input_defaultValue := VNum 32;
              input_placeholder := None |});
    reflexivity.
Defined.

Lemma cva_classes_ext (cfg : CvaConfig) (p1 p2 : JsObject) :
  Forall (λ vt, variant_class cfg p1 vt.1 vt.2 = variant_class cfg p2 vt.1 vt.2)
    (cva_variants cfg) →
  cva cfg p1 = cva cfg p2.
Proof.
  intros Hall. unfold cva.
  assert (variant_classes cfg p1 (cva_variants cfg)
          = variant_classes cfg p2 (cva_variants cfg)) as ->; [|done].
  induction Hall as [|[variant table] vs Hclass _ IH]; [done|].
  cbn [variant_classes]. cbn [fst snd] in Hclass. by rewrite Hclass, IH.
Qed.

(** Reading a name off an object literal. *)
Ltac get_literal :=
  repeat first [rewrite get_insert_eq
               |rewrite get_singleton_eq
               |rewrite get_insert_ne by done].

Lemma ImageGalleryItem_congr (props props' : JsObject) (ref : JsValue) :
  omit ImageGallery.declared props = omit ImageGallery.declared props' →
  get props "src" = get props' "src" →
  cva ImageGallery.variants
    (<["columnSpan" := get props "columnSpan"]>
       (<["borderRadius" := get props "borderRadius"]>
          {["hideOnMobile" := get props "hideOnMobile"]}))
  = cva ImageGallery.variants
      (<["columnSpan" := get props' "columnSpan"]>
         (<["borderRadius" := get props' "borderRadius"]>
            {["hideOnMobile" := get props' "hideOnMobile"]})) →
  ImageGallery.below_image props = ImageGallery.below_image props' →
  ImageGallery.ImageGalleryItem props ref
  = ImageGallery.ImageGalleryItem props' ref.
Proof.
  intros Hrest Hsrc Hcva Hbelow.
  unfold ImageGallery.ImageGalleryItem.
  unfold ImageGallery.below_image in Hbelow.
  by rewrite Hrest, Hsrc, Hbelow, Hcva.
Qed.

(** X9.  For the column span, the mobile switch, the font size, the font
    weight and the color of the label, the schema of the tile and the tile
    agree on the default: leaving the parameter out renders exactly what
    the schema's default value renders. *)
Theorem tile_schema_defaults (props : JsObject) (ref : JsValue)
    (name : string) (input : SchemaInput) :
  name ∈ ["columnSpan"; "hideOnMobile"; "labelFontSize"; "labelFontWeight";
          "labelColor"] →
  get props name = VUndefined →
  find_input ImageGallery.schema name = Some input →
  ImageGallery.ImageGalleryItem props ref
  = ImageGallery.ImageGalleryItem
      (<[name := input_defaultValue input]> props) ref.
Proof.
  intros Hname Hget Hfind.
  repeat (apply elem_of_cons in Hname as [->|Hname]);
    [..|by apply elem_of_nil in Hname];
    injection Hfind as <-; cbn [input_defaultValue ImageGallery.plain_input];
    apply ImageGalleryItem_congr;
    try (symmetry; by apply omit_insert_named; decide_names);
    try (by rewrite get_insert_ne).
  all: try (unfold ImageGallery.below_image, ImageGallery.caption;
            get_literal; by rewrite ?Hget).
  all: apply cva_classes_ext; repeat constructor; cbn [fst snd].
  all: first [apply variant_class_ext; by get_literal
             |apply variant_class_default; get_literal; done].
Qed.

Lemma tile_schema_defaults_witness :
  let props : JsObject :=
    <["src" := VStr "foo.jpg"]> {["label" := VStr "Caption"]} in
  ("labelFontSize"
   ∈ ["columnSpan"; "hideOnMobile"; "labelFontSize"; "labelFontWeight";
      "labelColor"])
  ∧ get props "labelFontSize" = VUndefined
  ∧ ImageGallery.ImageGalleryItem props VNull
    = ImageGallery.ImageGalleryItem
        (<["labelFontSize" := VStr "base"]> props) VNull.
Proof.
  intros props. split; [decide_names|]. split; [reflexivity|].
  destruct (find_input ImageGallery.schema "labelFontSize") as [input|] eqn:Hf;
    [|discriminate Hf].
  assert (input_defaultValue input = VStr "base") as <-
    by (injection Hf as <-; reflexivity).
  apply (tile_schema_defaults props VNull "labelFontSize" input);
    [decide_names|reflexivity|exact Hf].
Defined.

(** ** The mobile switch *)

(** X7.  The mobile switch selects [hidden sm:block] when it is [true]
    and the empty class when it is [false].  The container then carries
    the class of the column span, the class of the border radius and, for
    [true] only, [hidden sm:block] after them; with the column span and
    the border radius left out, its class is the one of their defaults,
    followed by [hidden sm:block] for [true] and by nothing for [false]. *)
Theorem hide_on_mobile_class (props : JsObject) (ref : JsValue) (b : bool) :
  ImageGallery.variant_params_primitive props = true →
  ImageGallery.caption_params_primitive props = true →
  get props "hideOnMobile" = VBool b →
  ∃ tree span radius,
    ImageGallery.ImageGalleryItem props ref = Ok tree
    ∧ variant_class ImageGallery.variants props "columnSpan"
        ImageGallery.columnSpanTable = Ok span
    ∧ variant_class ImageGallery.variants props "borderRadius"
        ImageGallery.borderRadiusTable = Ok radius
    ∧ variant_class ImageGallery.variants props "hideOnMobile"
        ImageGallery.hideOnMobileTable
      = Ok (CStr (if b then "hidden sm:block" else ""))
    ∧ ImageGallery.container_class tree
      = VStr (clsx [CStr "relative overflow-hidden";
                    CStr (clsx [CStr "relative h-[--image-height]";
                                CArr (if b
                                      then [span; radius;
                                            CStr "hidden sm:block"]
                                      else [span; radius]);
                                CNil; CNil; CNil])])
    ∧ (get props "columnSpan" = VUndefined →
       get props "borderRadius" = VUndefined →
       ImageGallery.container_class tree
       = VStr (if b
               then "relative overflow-hidden relative h-[--image-height] col-span-1 rounded-lg hidden sm:block"
               else "relative overflow-hidden relative h-[--image-height] col-span-1 rounded-lg")).
Proof.
  intros Hv Hc Hhide.
  destruct (image_variants_primitive props Hv)
    as (span & radius & hide & Hs & Hr & Hh).
  destruct (below_image_primitive props Hc) as [below Hbelow].
  pose proof (image_variant_classes props span radius hide Hs Hr Hh) as Hcls.
  assert (hide = CStr (if b then "hidden sm:block" else "")) as ->.
  { unfold variant_class in Hh. rewrite Hhide in Hh.
    destruct b; by injection Hh as <-. }
  eexists _, span, radius.
  split; [exact (ImageGalleryItem_render props ref _ below Hcls Hbelow)|].
  split; [exact Hs|]. split; [exact Hr|]. split; [exact Hh|].
  cbn [ImageGallery.container_class]. rewrite get_singleton_eq. split.
  - by destruct b.
  - intros Hspan Hradius.
    rewrite (variant_class_omitted ImageGallery.variants props "columnSpan"
               ImageGallery.columnSpanTable 1 Hspan eq_refl) in Hs.
    rewrite (variant_class_omitted ImageGallery.variants props "borderRadius"
               ImageGallery.borderRadiusTable 8 Hradius eq_refl) in Hr.
    injection Hs as <-. injection Hr as <-. by destruct b.
Qed.

Lemma hide_on_mobile_class_witness :
  let props : JsObject :=
    <["src" := VStr "foo.jpg"]> {["hideOnMobile" := VBool false]} in
  ImageGallery.variant_params_primitive props = true
  ∧ ImageGallery.caption_params_primitive props = true
  ∧ get props "hideOnMobile" = VBool false
  ∧ (∃ tree,
       ImageGallery.ImageGalleryItem props VNull = Ok tree
       ∧ ImageGallery.container_class tree
         = VStr "relative overflow-hidden relative h-[--image-height] col-span-1 rounded-lg").
Proof.
  intros props. split; [reflexivity|]. split; [reflexivity|].
  split; [reflexivity|].
  destruct (hide_on_mobile_class props VNull false eq_refl eq_refl eq_refl)
    as (tree & span & radius & Hrender & _ & _ & _ & _ & Hclass).
  exists tree. split; [exact Hrender|]. apply Hclass; reflexivity.
Defined.

(** ** Range controls and tables *)

(** Either [n] is one of the given numbers, which closes the goal, or it
    differs from each of them. *)
Ltac known_name n ms :=
  lazymatch ms with
  | [] => idtac
  | ?m :: ?ms' =>
      destruct (decide (n = m)) as [->|?]; [done|]; known_name n ms'
  end.

(** A table read under the decimal form of a number that differs from the
    number of each entry finds nothing. *)
Ltac lookup_miss :=
  cbn [list_to_map foldr fst snd uncurry];
  repeat (rewrite lookup_insert_ne;
          [|match goal with
            | H : ?n ≠ ?m |- ?k ≠ pretty ?n =>
                change k with (pretty m); apply pretty_Z_ne; congruence
            end]);
  by rewrite lookup_empty.

(** X10.  The names of each variant table are exactly the values the range
    control of its schema input offers: a gap has a spacing class, a column
    span a span class and a border radius a rounding class exactly when
    the control can deliver it. *)
Theorem range_offers_table_names (n : Z) :
  (∀ table, ("gap", table) ∈ cva_variants Testimonials.variants →
     range_offers Testimonials.schema "gap" n = true
     ↔ is_Some (table !! pretty n))
  ∧ (range_offers ImageGallery.schema "columnSpan" n = true
     ↔ is_Some (ImageGallery.columnSpanTable !! pretty n))
  ∧ (range_offers ImageGallery.schema "borderRadius" n = true
     ↔ is_Some (ImageGallery.borderRadiusTable !! pretty n)).
Proof.
  split; [|split].
  - intros table Hin.
    apply list_elem_of_singleton in Hin. injection Hin as ->.
    change (range_offers Testimonials.schema "gap" n)
      with (in_range (range_configs 16 40 8 (Some "px")) n).
    unfold in_range, range_configs; cbn [configs_min configs_max configs_step].
    rewrite !andb_true_iff, !Z.leb_le, Z.eqb_eq. split.
    + intros [[Hlo Hhi] Hstep].
      assert (n = 16 ∨ n = 24 ∨ n = 32 ∨ n = 40)%Z as Hn by lia.
      repeat (destruct Hn as [->|Hn]; [by eexists|]). subst n. by eexists.
    + intros Hsome. known_name n [16; 24; 32; 40]%Z.
      destruct Hsome as [c Hc]. exfalso. revert Hc. lookup_miss.
  - change (range_offers ImageGallery.schema "columnSpan" n)
      with (in_range (range_configs 1 4 1 None) n).
    unfold in_range, range_configs; cbn [configs_min configs_max configs_step].
    rewrite !andb_true_iff, !Z.leb_le, Z.eqb_eq. split.
    + intros [[Hlo Hhi] Hstep].
      assert (n = 1 ∨ n = 2 ∨ n = 3 ∨ n = 4)%Z as Hn by lia.
      repeat (destruct Hn as [->|Hn]; [by eexists|]). subst n. by eexists.
    + intros Hsome. known_name n [1; 2; 3; 4]%Z.
      destruct Hsome as [c Hc]. exfalso. revert Hc.
      unfold ImageGallery.columnSpanTable. lookup_miss.
  - change (range_offers ImageGallery.schema "borderRadius" n)
      with (in_range (range_configs 0 24 2 (Some "px")) n).
    unfold in_range, range_configs; cbn [configs_min configs_max configs_step].
    rewrite !andb_true_iff, !Z.leb_le, Z.eqb_eq. split.
    + intros [[Hlo Hhi] Hstep].
      assert (n = 0 ∨ n = 2 ∨ n = 4 ∨ n = 6 ∨ n = 8 ∨ n = 10 ∨ n = 12
              ∨ n = 14 ∨ n = 16 ∨ n = 18 ∨ n = 20 ∨ n = 22 ∨ n = 24)%Z
        as Hn by lia.
      repeat (destruct Hn as [->|Hn]; [by eexists|]). subst n. by eexists.
    + intros Hsome.
      known_name n [0; 2; 4; 6; 8; 10; 12; 14; 16; 18; 20; 22; 24]%Z.
      destruct Hsome as [c Hc]. exfalso. revert Hc.
      unfold ImageGallery.borderRadiusTable. lookup_miss.
Qed.

Lemma range_offers_table_names_witness :
  range_offers ImageGallery.schema "borderRadius" 14 = true
  ∧ is_Some (ImageGallery.borderRadiusTable !! pretty 14%Z)
  ∧ range_offers ImageGallery.schema "borderRadius" 15 = false
  ∧ ImageGallery.borderRadiusTable !! pretty 15%Z = None.
Proof.
  split; [reflexivity|]. split.
  - apply (range_offers_table_names 14). reflexivity.
  - split; [reflexivity|].
    destruct (ImageGallery.borderRadiusTable !! pretty 15%Z) as [c|] eqn:Hc;
      [|reflexivity].
    assert (range_offers ImageGallery.schema "borderRadius" 15 = true)
      as Hoffer by (apply (range_offers_table_names 15); rewrite Hc; by eexists).
    discriminate Hoffer.
Defined.

(** ** The caption *)

(** The caption of a tile whose label is truthy, from the two typography
    keys. *)
Lemma ImageGalleryItem_caption (props : JsObject) (ref : JsValue)
    (sizeKey weightKey : string) :
  ImageGallery.variant_params_primitive props = true →
  truthy (get props "label") = true →
  toPropertyKey
    (ImageGallery.or_default (get props "labelFontSize") (VStr "base"))
  = Ok sizeKey →
  toPropertyKey
    (ImageGallery.or_default (get props "labelFontWeight") (VStr "normal"))
  = Ok weightKey →
  ∃ tree container attrs,
    ImageGallery.ImageGalleryItem props ref = Ok tree
    ∧ element_children tree
      = [container; VElem (HostTag "div") attrs [get props "label"]]
    ∧ attrs !! "className"
      = Some (VStr (clsx [CStr "mt-2 text-center font-sans";
                          table_get ImageGallery.fontSizeClasses sizeKey;
                          table_get ImageGallery.fontWeightClasses weightKey])).
Proof.
  intros Hv Hlabel Hsize Hweight.
  destruct (ImageGalleryItem_below props ref
              (VElem (HostTag "div")
                 (<["className" :=
                      VStr (clsx [CStr "mt-2 text-center font-sans";
                                  table_get ImageGallery.fontSizeClasses sizeKey;
                                  table_get ImageGallery.fontWeightClasses
                                    weightKey])]>
                    {["style" :=
                        if truthy (get props "labelColor")
                        then VObj {["color" := get props "labelColor"]}
                        else VUndefined]})
                 [get props "label"]) Hv) as [cls Hrender].
  { unfold ImageGallery.below_image. rewrite Hlabel.
    by apply caption_keys. }
  eexists _, _, _. split; [exact Hrender|]. split; [reflexivity|].
  apply lookup_insert_eq.
Qed.

(** X11.  For every font size and every font weight the schema's select
    controls offer, the caption carries the class [text-] followed by the
    size and the class [font-] followed by the weight, after its three
    base classes. *)
Theorem caption_typography (props : JsObject) (ref : JsValue)
    (size weight : string) :
  ImageGallery.variant_params_primitive props = true →
  truthy (get props "label") = true →
  size ∈ select_offers ImageGallery.schema "labelFontSize" →
  weight ∈ select_offers ImageGallery.schema "labelFontWeight" →
  get props "labelFontSize" = VStr size →
  get props "labelFontWeight" = VStr weight →
  ∃ tree container attrs,
    ImageGallery.ImageGalleryItem props ref = Ok tree
    ∧ element_children tree
      = [container; VElem (HostTag "div") attrs [get props "label"]]
    ∧ attrs !! "className"
      = Some (VStr ("mt-2 text-center font-sans text-" +:+ size
                    +:+ " font-" +:+ weight)).
Proof.
  intros Hv Hlabel Hsize Hweight Hs Hw.
  destruct (ImageGalleryItem_caption props ref size weight Hv Hlabel)
    as (tree & container & attrs & Hrender & Hkids & Hclass).
  { by rewrite Hs. }
  { by rewrite Hw. }
  exists tree, container, attrs. split; [exact Hrender|].
  split; [exact Hkids|]. rewrite Hclass.
  change (select_offers ImageGallery.schema "labelFontSize")
    with ["xs"; "sm"; "base"; "lg"; "xl"] in Hsize.
  change (select_offers ImageGallery.schema "labelFontWeight")
    with ["normal"; "medium"; "semibold"; "bold"] in Hweight.
  repeat (apply elem_of_cons in Hsize as [->|Hsize]);
    [..|by apply elem_of_nil in Hsize];
    repeat (apply elem_of_cons in Hweight as [->|Hweight]);
    try (by apply elem_of_nil in Hweight); reflexivity.
Qed.

Lemma caption_typography_witness :
  let props : JsObject :=
    <["label" := VStr "Caption"]>
      (<["labelFontSize" := VStr "xl"]> {["labelFontWeight" := VStr "bold"]}) in
  ImageGallery.variant_params_primitive props = true
  ∧ truthy (get props "label") = true
  ∧ (∃ tree container attrs,
       ImageGallery.ImageGalleryItem props VNull = Ok tree
       ∧ element_children tree
         = [container; VElem (HostTag "div") attrs [VStr "Caption"]]
       ∧ attrs !! "className"
         = Some (VStr "mt-2 text-center font-sans text-xl font-bold")).
Proof.
  intros props. split; [reflexivity|]. split; [reflexivity|].
  apply (caption_typography props VNull "xl" "bold");
    [reflexivity|reflexivity|decide_names|decide_names|reflexivity
    |reflexivity].
Defined.

(** X12.  A font size and a font weight that their tables do not name
    leave the caption with its three base classes.  This includes [null]:
    the defaults [base] and [normal] replace an omitted value only. *)
Theorem caption_typography_miss (props : JsObject) (ref : JsValue)
    (sizeKey weightKey : string) :
  ImageGallery.variant_params_primitive props = true →
  truthy (get props "label") = true →
  get props "labelFontSize" ≠ VUndefined →
  get props "labelFontWeight" ≠ VUndefined →
  toPropertyKey (get props "labelFontSize") = Ok sizeKey →
  toPropertyKey (get props "labelFontWeight") = Ok weightKey →
  ImageGallery.fontSizeClasses !! sizeKey = None →
  ImageGallery.fontWeightClasses !! weightKey = None →
  ∃ tree container attrs,
    ImageGallery.ImageGalleryItem props ref = Ok tree
    ∧ element_children tree
      = [container; VElem (HostTag "div") attrs [get props "label"]]
    ∧ attrs !! "className" = Some (VStr "mt-2 text-center font-sans").
Proof.
  intros Hv Hlabel Hsize Hweight Hs Hw Hsmiss Hwmiss.
  destruct (ImageGalleryItem_caption props ref sizeKey weightKey Hv Hlabel)
    as (tree & container & attrs & Hrender & Hkids & Hclass).
  { by destruct (get props "labelFontSize"). }
  { by destruct (get props "labelFontWeight"). }
  exists tree, container, attrs. split; [exact Hrender|].
  split; [exact Hkids|]. rewrite Hclass. unfold table_get.
  by rewrite Hsmiss, Hwmiss.
Qed.

Lemma caption_typography_miss_witness :
  let props : JsObject :=
    <["label" := VStr "Caption"]>
      (<["labelFontSize" := VNull]> {["labelFontWeight" := VStr "heavy"]}) in
  ImageGallery.variant_params_primitive props = true
  ∧ truthy (get props "label") = true
  ∧ (∃ tree container attrs,
       ImageGallery.ImageGalleryItem props VNull = Ok tree
       ∧ element_children tree
         = [container; VElem (HostTag "div") attrs [VStr "Caption"]]
       ∧ attrs !! "className" = Some (VStr "mt-2 text-center font-sans")).
Proof.
  intros props. split; [reflexivity|]. split; [reflexivity|].
  apply (caption_typography_miss props VNull "null" "heavy");
    [reflexivity|reflexivity|discriminate|discriminate|reflexivity
    |reflexivity|reflexivity|reflexivity].
Defined.

(** X13.  A caption is rendered exactly when the label is truthy.  A
    truthy label gives a second element, the caption, holding the label; a
    falsy label is itself the second child of the root, and the image
    container is then the only element. *)
Theorem caption_iff_label_truthy (props : JsObject) (ref tree : JsValue) :
  ImageGallery.ImageGalleryItem props ref = Ok tree →
  ∃ container,
    (truthy (get props "label") = true →
       ∃ attrs,
         element_children tree
         = [container; VElem (HostTag "div") attrs [get props "label"]])
    ∧ (truthy (get props "label") = false →
         element_children tree = [container; get props "label"]
         ∧ ImageGallery.rendered_elements tree = [container]).
Proof.
  intros Hrender.
  destruct (ImageGalleryItem_inv props ref tree Hrender)
    as (cls & below & -> & Hbelow).
  eexists. unfold ImageGallery.below_image, ImageGallery.caption in Hbelow.
  split; intros Hlabel; rewrite Hlabel in Hbelow.
  - destruct (toPropertyKey (ImageGallery.or_default _ (VStr "base")))
      as [sizeKey|]; [|discriminate].
    destruct (toPropertyKey (ImageGallery.or_default _ (VStr "normal")))
      as [weightKey|]; [|discriminate].
    injection Hbelow as <-. by eexists.
  - injection Hbelow as <-. split; [reflexivity|].
    by destruct (get props "label") as [| |[]|[| |]|[|]| | |].
Qed.

Lemma caption_iff_label_truthy_witness :
  let props : JsObject :=
    <["src" := VStr "foo.jpg"]> {["label" := VNum 0]} in
  ∃ tree container,
    ImageGallery.ImageGalleryItem props VNull = Ok tree
    ∧ truthy (get props "label") = false
    ∧ element_children tree = [container; VNum 0]
    ∧ ImageGallery.rendered_elements tree = [container].
Proof.
  intros props.
  destruct (ImageGallery.ImageGalleryItem props VNull) as [tree|] eqn:Hr;
    [|discriminate Hr].
  destruct (caption_iff_label_truthy props VNull tree Hr)
    as (container & _ & Hfalsy).
  exists tree, container. split; [reflexivity|]. split; [reflexivity|].
  apply Hfalsy. reflexivity.
Defined.

(** ** The source at its edges *)

(** X14.  Only a string is not special to the normalization: every source
    that is not an object is wrapped, so a missing source reaches the image
    renderer as a record whose [url] and [altText] are both [undefined] and
    a number as a record of that number, while [null] and an array, being
    objects, pass through as they are. *)
Theorem src_edges (props : JsObject) (ref tree : JsValue) :
  ImageGallery.ImageGalleryItem props ref = Ok tree →
  ∃ ip,
    ImageGallery.image_renderer_props tree = Some ip
    ∧ (typeof_object (get props "src") = false →
         ip !! "data"
         = Some (VObj (<["url" := get props "src"]>
                         {["altText" := get props "src"]})))
    ∧ (typeof_object (get props "src") = true →
         ip !! "data" = Some (get props "src"))
    ∧ (props !! "src" = None →
         ip !! "data"
         = Some (VObj (<["url" := VUndefined]> {["altText" := VUndefined]})))
    ∧ (get props "src" = VNull → ip !! "data" = Some VNull).
Proof.
  intros Hrender.
  destruct (ImageGalleryItem_inv props ref tree Hrender)
    as (cls & below & -> & _).
  eexists. split; [reflexivity|]. rewrite image_props_data.
  unfold ImageGallery.image_data.
  split; [by intros ->|]. split; [by intros ->|].
  split; [|by intros ->].
  intros Hmissing. unfold get. by rewrite Hmissing.
Qed.

Lemma src_edges_witness :
  let props : JsObject := {["label" := VStr "Caption"]} in
  ∃ tree ip,
    ImageGallery.ImageGalleryItem props VNull = Ok tree
    ∧ props !! "src" = None
    ∧ ImageGallery.image_renderer_props tree = Some ip
    ∧ ip !! "data"
      = Some (VObj (<["url" := VUndefined]> {["altText" := VUndefined]})).
Proof.
  intros props.
  destruct (ImageGallery.ImageGalleryItem props VNull) as [tree|] eqn:Hr;
    [|discriminate Hr].
  destruct (src_edges props VNull tree Hr) as (ip & Hip & _ & _ & Hmissing & _).
  exists tree, ip. split; [reflexivity|]. split; [reflexivity|].
  split; [exact Hip|]. apply Hmissing. reflexivity.
Defined.

(** ** Variants switched off *)

(** X15.  [null] switches a variant off instead of selecting its default:
    a layout given a [null] gap keeps only its two base classes, and a tile
    given [null] for its column span, border radius and mobile switch keeps
    only the base classes of its container. *)
Theorem null_switches_variants_off (props : JsObject) (ref : JsValue) :
  (∀ items,
     Testimonials.child_sequence (get props "children") = Some items →
     get props "gap" = VNull →
     Testimonials.renders_with_class props ref "grid lg:grid-cols-3")
  ∧ (ImageGallery.caption_params_primitive props = true →
     get props "columnSpan" = VNull →
     get props "borderRadius" = VNull →
     get props "hideOnMobile" = VNull →
     ∃ tree,
       ImageGallery.ImageGalleryItem props ref = Ok tree
       ∧ ImageGallery.container_class tree
         = VStr "relative overflow-hidden relative h-[--image-height]").
Proof.
  split.
  - intros items Hseq Hgap.
    apply (renders_class_of_gap props ref items "grid lg:grid-cols-3" Hseq).
    by rewrite Hgap.
  - intros Hc Hspan Hradius Hhide.
    destruct (below_image_primitive props Hc) as [below Hbelow].
    eexists. split.
    + apply (ImageGalleryItem_render props ref
               "relative h-[--image-height]" below); [|exact Hbelow].
      by rewrite Hspan, Hradius, Hhide.
    + reflexivity.
Qed.

Lemma null_switches_variants_off_witness :
  let props : JsObject :=
    <["gap" := VNull]>
      (<["columnSpan" := VNull]>
         (<["borderRadius" := VNull]> {["hideOnMobile" := VNull]})) in
  Testimonials.renders_with_class props VNull "grid lg:grid-cols-3"
  ∧ (∃ tree,
       ImageGallery.ImageGalleryItem props VNull = Ok tree
       ∧ ImageGallery.container_class tree
         = VStr "relative overflow-hidden relative h-[--image-height]").
Proof.
  intros props.
  destruct (null_switches_variants_off props VNull) as [Hlayout Htile].
  split.
  - apply (Hlayout []); reflexivity.
  - apply Htile; reflexivity.
Defined.
